(** * fxa-auth-server: the error wrapper of [error.js]

    A shallow embedding of [packages/fxa-auth-server/error.js]: the
    [errors.wrap] entry point, the sixteen response constructors that call
    it, and the two hapi helpers it is built on ([Hoek], exported by hapi as
    [utils], and [Boom], exported as [error]).

    JavaScript objects live in a store and are passed by reference, so that
    what [wrap] writes, and where, is part of the model.  The clock and the
    logger handed to the module are part of the same state. *)

From stdpp Require Import gmap strings list fin_maps pretty.
From Stdlib Require Import ZArith.

Open Scope Z_scope.

(** ** JavaScript values *)

(** Numbers.  An integral double is a [Z] (with [-0] read as [0], which
    nothing here tells apart).  A double that is not integral is its floor
    and a fractional part strictly between 0 and 1, given by its binary
    digits after the point: the first digit outermost, the last one, a 1,
    as [xH].  So [Frac 400 1] is 400.5, [Frac 400 2] is 400.25 and
    [Frac (-1) 1] is -0.5.  Every number literal of [error.js] is integral,
    and its only arithmetic is [Math.floor(ms / 1000)] on an integral clock
    reading; what comes in from outside need not be. *)
Inductive number :=
| Int (z : Z)
| NaN
| Infinity (negative : bool)
| Frac (floor : Z) (digits : positive).

(** A field holds a primitive or a nested plain object.  Nested objects are
    carried as finite maps: [wrap] copies them ([Hoek.clone]) and never
    writes into one in place.  There are no functions and no arrays among
    these values: a field named as a method ([hasOwnProperty], [toString])
    holds something that cannot be called. *)
#[warnings="-register-all"]
Inductive value :=
| VUndef
| VNull
| VBool (b : bool)
| VNum (n : number)
| VStr (s : string)
| VObj (fields : gmap string value).

(** An own property.  [enumerable] is what [Object.keys] looks at; the
    [message] of an [Error] instance is own but not enumerable. *)
Record property := Property { enumerable : bool; pvalue : value }.

(** A top-level object: its own properties by name.  Every object here
    inherits from [Object.prototype], directly or as an [Error] instance,
    and [Object.prototype] is as the platform defines it: what an object
    does not have of its own is [undefined], but for the built-in methods. *)
Abbreviation jsobject := (gmap string property).

Definition data (v : value) : property := Property true v.

(** An object literal. *)
Definition literal (fields : list (string * value)) : jsobject :=
  list_to_map (prod_map id data <$> fields).

Inductive jstype := TUndefined | TObject | TBoolean | TNumber | TString.

Definition typeof (v : value) : jstype :=
  match v with
  | VUndef => TUndefined
  | VNull => TObject
  | VBool _ => TBoolean
  | VNum _ => TNumber
  | VStr _ => TString
  | VObj _ => TObject
  end.

Definition jstype_eqb (a b : jstype) : bool :=
  match a, b with
  | TUndefined, TUndefined | TObject, TObject | TBoolean, TBoolean
  | TNumber, TNumber | TString, TString => true
  | _, _ => false
  end.

(** [typeof v === 'undefined'] and [typeof v === 'number'] *)
Definition is_undefined (v : value) : bool := jstype_eqb (typeof v) TUndefined.
Definition is_number (v : value) : bool := jstype_eqb (typeof v) TNumber.

(** A number literal. *)
Definition num (z : Z) : value := VNum (Int z).

(** [if (v)] *)
Definition truthy (v : value) : bool :=
  match v with
  | VUndef | VNull => false
  | VBool b => b
  | VNum (Int z) => negb (z =? 0)
  | VNum NaN => false
  | VNum (Infinity _) => true
  | VNum (Frac _ _) => true
  | VStr s => negb (String.eqb s "")
  | VObj _ => true
  end.

Definition number_eqb (a b : number) : bool :=
  match a, b with
  | Int x, Int y => x =? y
  | Infinity s, Infinity t => Bool.eqb s t
  | Frac x p, Frac y q => (x =? y) && Pos.eqb p q
  | _, _ => false
  end.

(** [a === b] against a primitive.  Objects compare by identity and are
    never identical to a literal, which is all [error.js] compares with. *)
Definition strict_eq (a b : value) : bool :=
  match a, b with
  | VUndef, VUndef => true
  | VNull, VNull => true
  | VBool x, VBool y => Bool.eqb x y
  | VNum x, VNum y => number_eqb x y
  | VStr x, VStr y => String.eqb x y
  | _, _ => false
  end.

(** [xs.indexOf(x)]: the first index holding a value [=== x], or [-1]. *)
Fixpoint indexOf_from (i : Z) (xs : list value) (x : value) : Z :=
  match xs with
  | [] => -1
  | y :: ys => if strict_eq y x then i else indexOf_from (i + 1) ys x
  end.

Definition Array_indexOf (xs : list value) (x : value) : Z := indexOf_from 0 xs x.

(** Not an object: [typeof v] is not ['object'], or [v] is [null]. *)
Definition primitive (v : value) : bool :=
  match v with
  | VObj _ => false
  | _ => true
  end.

(** An object, at any depth in the value, with a field named
    [hasOwnProperty] or [__proto__]. *)
Fixpoint exotic (v : value) : bool :=
  match v with
  | VObj f =>
      bool_decide (is_Some (f !! "hasOwnProperty"))
      || bool_decide (is_Some (f !! "__proto__"))
      || map_fold (fun _ x acc => acc || exotic x) false f
  | _ => false
  end.

(** [a || b] *)
Definition js_or (a b : value) : value := if truthy a then a else b.

(** ** Regular expressions

    The fragment [TOO_LARGE] is written in: literals, alternation and
    sequence, anchored at the start of the subject.  [rmatch r s] lists what
    is left of [s] after each way [r] can match a prefix of it. *)
Inductive regex :=
| RLit (s : string)
| RAlt (a b : regex)
| RSeq (a b : regex).

Fixpoint strip_prefix (p s : string) : option string :=
  match p with
  | EmptyString => Some s
  | String c p' =>
      match s with
      | EmptyString => None
      | String d s' => if Ascii.eqb c d then strip_prefix p' s' else None
      end
  end.

Fixpoint rmatch (r : regex) (s : string) : list string :=
  match r with
  | RLit p => match strip_prefix p s with Some t => [t] | None => [] end
  | RAlt a b => rmatch a s ++ rmatch b s
  | RSeq a b => flat_map (rmatch b) (rmatch a s)
  end.

(** [/^r/.test(s)] on a string. *)
Definition test (r : regex) (s : string) : bool :=
  match rmatch r s with
  | [] => false
  | _ :: _ => true
  end.

(** ** The store, the clock and the log *)

Definition loc := nat.

Inductive severity := trace | info | warn | error.

(** What [log.error] is handed: [{ op: .., msg: .., err: <reference> }]. *)
Record log_event := LogEvent {
  level : severity;
  op : string;
  msg : string;
  err : loc
}.

(** Objects are allocated at the end of the store and never freed.
    [clock] is what [+new Date()] reads, in milliseconds. *)
Record world := World {
  heap : list jsobject;
  clock : Z;
  log : list log_event
}.

Inductive exn :=
| TypeError (what : string)
| AssertionError (what : string).

(** Where the model leaves the program.  [Hoek.merge] assigns
    [target[key]] for every enumerable key of its source, and for the key
    [__proto__] the target is an accessor of [Object.prototype]: an object
    under that key is merged into [Object.prototype] itself, and [null]
    takes the prototype of the target away.  From there on every property
    read of the program, and of the libraries under it, depends on what was
    written.  The objects of this model have own properties only, so it
    records the write and follows the call no further. *)
Inductive departure :=
| prototype_written (source : gmap string value)
| prototype_removed.

Inductive outcome (A : Type) :=
| Returned (a : A)
| Threw (e : exn)
| OutOfFuel
| Unfollowed (d : departure).
Arguments Returned {A} a.
Arguments Threw {A} e.
Arguments OutOfFuel {A}.
Arguments Unfollowed {A} d.

Definition M (A : Type) : Type := world -> outcome A * world.

Definition ret {A} (a : A) : M A := fun w => (Returned a, w).

Definition bind {A B} (m : M A) (k : A -> M B) : M B :=
  fun w =>
    match m w with
    | (Returned a, w') => k a w'
    | (Threw e, w') => (Threw e, w')
    | (OutOfFuel, w') => (OutOfFuel, w')
    | (Unfollowed d, w') => (Unfollowed d, w')
    end.

Definition throw {A} (e : exn) : M A := fun w => (Threw e, w).

Definition out_of_fuel {A} : M A := fun w => (OutOfFuel, w).

Definition depart {A} (d : departure) : M A := fun w => (Unfollowed d, w).

Notation "'let!' x ':=' m 'in' k" := (bind m (fun x => k))
  (at level 10, x name, m at level 100, k at level 200).
Notation "m ';;;' k" := (bind m (fun _ => k))
  (at level 100, k at level 200, right associativity).

Definition alloc (o : jsobject) : M loc :=
  fun w => (Returned (length (heap w)), World (heap w ++ [o]) (clock w) (log w)).

Definition load (l : loc) : M jsobject :=
  fun w =>
    match heap w !! l with
    | Some o => (Returned o, w)
    | None => (Threw (TypeError "not an object"), w)
    end.

Definition store (l : loc) (o : jsobject) : M unit :=
  fun w => (Returned tt, World (<[l := o]> (heap w)) (clock w) (log w)).

(** [o[k]]: an own property, whether enumerable or not; [undefined] when
    there is none. *)
Definition field (o : jsobject) (k : string) : value :=
  match o !! k with
  | Some p => pvalue p
  | None => VUndef
  end.

(** [o[k] = v]: an existing property keeps its attributes, a new one is
    enumerable. *)
Definition assign (p : option property) (v : value) : property :=
  match p with
  | Some q => Property (enumerable q) v
  | None => data v
  end.

Definition set_field (o : jsobject) (k : string) (v : value) : jsobject :=
  <[k := assign (o !! k) v]> o.

Definition get (l : loc) (k : string) : M value :=
  let! o := load l in ret (field o k).

Definition set (l : loc) (k : string) (v : value) : M unit :=
  let! o := load l in store l (set_field o k v).

(** [o.hasOwnProperty(k)].  The method is looked up on [o] first: an own
    field of that name, enumerable or not, hides the built-in, and what it
    holds cannot be called. *)
Definition not_a_function : exn := TypeError "hasOwnProperty is not a function".

Definition hasOwnProperty (l : loc) (k : string) : M bool :=
  let! o := load l in
  match o !! "hasOwnProperty" with
  | Some _ => throw not_a_function
  | None => ret (bool_decide (is_Some (o !! k)))
  end.

(** [+new Date()] *)
Definition Date_now : M Z := fun w => (Returned (clock w), w).

(** [log.error({ op: op, msg: msg, err: err })], for the logger the module
    was instantiated with: it records the event and returns. *)
Definition log_error (op msg : string) (err : loc) : M unit :=
  fun w => (Returned tt, World (heap w) (clock w) (log w ++ [LogEvent error op msg err])).

(** ** hapi's [utils]: Hoek

    [require('hapi').utils] is the hoek library, a dependency whose sources
    are not part of the repository.  The three functions [error.js] calls
    are modelled as hoek has them: [clone] copies own enumerable
    properties; [merge(target, source, isNullOverride)] assigns the
    enumerable properties of [source] to [target], merging object into
    object and assigning [null] and [undefined] only when [isNullOverride]
    is not [false]; [applyToDefaults(defaults, options)] is
    [merge(clone(defaults), options, false, false)].  (The fourth
    argument, [isMergeArrays], concerns arrays only, which are not among
    the values here.)  The three targets [error.js] merges into, a clone of
    [DEFAULTS], a literal and the payload of a new response, hold
    primitives only, so that an object of the source is cloned over what is
    there in every case ([merge_value_override]). *)
Module Hoek.

(** [Hoek.clone(obj)]: a fresh object with a copy of every own enumerable
    property. *)
Definition clone_object (o : jsobject) : jsobject :=
  omap (fun p => if enumerable p then Some (data (pvalue p)) else None) o.

Definition clone (obj : loc) : M loc :=
  let! o := load obj in alloc (clone_object o).

(** What one pass of the loop of [Hoek.merge] leaves in [target[key]], given
    what is there ([t]) and [value = source[key]] ([s]); [None] when it
    assigns nothing.  An object is merged into an object key by key, and
    cloned over anything else; [null] and [undefined] are assigned only
    under [isNullOverride]. *)
Fixpoint merge_value (isNullOverride : bool) (t s : value) {struct s} : option value :=
  match s with
  | VObj sf =>
      match t with
      | VObj tf =>
          Some (VObj (map_fold (fun key v acc =>
                  match merge_value isNullOverride (default VUndef (acc !! key)) v with
                  | Some r => <[key := r]> acc
                  | None => acc
                  end) tf sf))
      | _ => Some s
      end
  | VUndef | VNull => if isNullOverride then Some s else None
  | _ => Some s
  end.

(** The loop runs over [Object.keys(source)]: own enumerable keys.  The
    key [__proto__] is apart, see [reaches_prototype]. *)
Definition merge_property (isNullOverride : bool) (tp sp : option property) : option property :=
  match sp with
  | Some p =>
      if enumerable p then
        match merge_value isNullOverride (from_option pvalue VUndef tp) (pvalue p) with
        | Some v => Some (assign tp v)
        | None => tp
        end
      else tp
  | None => tp
  end.

Definition merge_object (isNullOverride : bool) (t s : jsobject) : jsobject :=
  base.merge (merge_property isNullOverride) t (delete "__proto__" s).

(** What [target['__proto__'] = ..] comes to for an enumerable key
    [__proto__] of the source.  [target['__proto__']] is [Object.prototype],
    an object: an object of the source is merged into it.  Anything else is
    assigned to the accessor, which takes the prototype away for [null]
    (assigned only under [isNullOverride]) and ignores a primitive. *)
Definition reaches_prototype (isNullOverride : bool) (s : jsobject) : option departure :=
  match s !! "__proto__" with
  | Some p =>
      if enumerable p then
        match pvalue p with
        | VObj f => Some (prototype_written f)
        | VNull => if isNullOverride then Some prototype_removed else None
        | _ => None
        end
      else None
  | None => None
  end.

(** [Hoek.merge(target, source, isNullOverride)]: writes into [target],
    returns it.  [isNullOverride] defaults to [true].  A source that
    reaches the prototype is not followed: the store is left as the call
    found it. *)
Definition merge (target source : loc) (isNullOverride : bool) : M loc :=
  let! t := load target in
  let! s := load source in
  match reaches_prototype isNullOverride s with
  | Some d => depart d
  | None =>
      store target (merge_object isNullOverride t s);;;
      ret target
  end.

(** [Hoek.applyToDefaults(defaults, options)]: the options are merged into
    a clone of the defaults, [null] and [undefined] options overriding
    nothing. *)
Definition applyToDefaults (defaults options : loc) : M loc :=
  let! copy := clone defaults in
  merge copy options false.

End Hoek.

(** ** hapi's [error]: Boom

    [require('hapi').error] is the boom library, a dependency as well.
    [new Boom(code, message)] asserts that [code] is a number from 400 up,
    and builds an error whose [response.payload] is
    [{ code, error, message }].  The error object is a value here; the
    payload it carries is an object of the store, since [wrap] goes on
    writing to it. *)
Record boom := Boom {
  isBoom : bool;
  response_code : value;
  response_payload : loc;
  boom_message : option value
}.

(** ** A host for concrete calls

    Node's status texts for the statuses this module answers with, an
    [escapeHtml] that escapes nothing, and the decimal digits of a number:
    what the concrete calls at the end of the file run on.  (The escaped
    text is overwritten by the last merge of [wrap] in every case.) *)
Definition node_STATUS_CODES (z : Z) : option string :=
  match z with
  | 400 => Some "Bad Request"
  | 401 => Some "Unauthorized"
  | 404 => Some "Not Found"
  | 411 => Some "Length Required"
  | 413 => Some "Request Entity Too Large"
  | 429 => Some "Too Many Requests"
  | 500 => Some "Internal Server Error"
  | 503 => Some "Service Unavailable"
  | _ => None
  end.

Definition plain_escapeHtml (v : value) : string :=
  match v with
  | VStr s => s
  | _ => ""
  end.

(** The digits of a fractional part, one for each binary digit it has. *)
Fixpoint fraction_numerator (f : positive) : Z * nat :=
  match f with
  | xH => (1, 1%nat)
  | xO f' => let '(m, k) := fraction_numerator f' in (m, S k)
  | xI f' => let '(m, k) := fraction_numerator f' in (m + 2 ^ Z.of_nat k, S k)
  end.

Fixpoint fraction_digits (steps : nat) (m d : Z) : string :=
  match steps with
  | O => ""
  | S steps' =>
      if m =? 0 then ""
      else pretty (10 * m / d) +:+ fraction_digits steps' (10 * m mod d) d
  end.

(** The number written out in full.  Node writes an integer below [2^53]
    in absolute value that way, and a fraction of few digits; it shortens
    or rounds the others, which no concrete call of this file spells. *)
Definition decimal (x : number) : string :=
  match x with
  | Int z => pretty z
  | NaN => "NaN"
  | Infinity false => "Infinity"
  | Infinity true => "-Infinity"
  | Frac z f =>
      let '(m, k) := fraction_numerator f in
      let d := 2 ^ Z.of_nat k in
      if 0 <=? z then pretty z +:+ "." +:+ fraction_digits k m d
      else "-" +:+ pretty (- z - 1) +:+ "." +:+ fraction_digits k (d - m) d
  end.

Section Service.

(** What the platform and the libraries supply: node's [http.STATUS_CODES]
    and the character escapes of [Hoek.escapeHtml], which the constructor
    reads, and the spelling of a number, [Number.prototype.toString]. *)
Variable STATUS_CODES : Z -> option string.
Variable escapeHtml : value -> string.
Variable Number_toString : number -> string.

(** [String(v)], as [RegExp.prototype.test] and [+] on a string apply it to
    their argument; [None] when the conversion throws.  An object is asked
    for its [toString], then for its [valueOf]: a field [toString] of its
    own cannot be called, and neither a field [valueOf] nor the built-in
    one, which returns the object, gives a primitive.  Without such a field
    the built-in [toString] answers. *)
Definition ToString (v : value) : option string :=
  match v with
  | VUndef => Some "undefined"
  | VNull => Some "null"
  | VBool true => Some "true"
  | VBool false => Some "false"
  | VNum x => Some (Number_toString x)
  | VStr s => Some s
  | VObj f =>
      match f !! "toString" with
      | Some _ => None
      | None => Some "[object Object]"
      end
  end.

Definition cannot_convert : exn := TypeError "Cannot convert object to primitive value".

Definition to_string (v : value) : M string :=
  match ToString v with
  | Some s => ret s
  | None => throw cannot_convert
  end.

(** [/^r/.test(v)] *)
Definition RegExp_test (r : regex) (v : value) : M bool :=
  let! s := to_string v in ret (test r s).

(** The assertion of the constructor on its first argument,
    [!isNaN(parseFloat(code)) && isFinite(code) && code >= 400].  [wrap]
    passes a number in every case, its status sanitation comes first;
    strings holding a numeral are not interpreted. *)
Definition status_accepted (code : value) : bool :=
  match code with
  | VNum (Int z) => 400 <=? z
  | VNum (Frac z _) => 400 <=? z
  | _ => false
  end.

Definition status_text (code : value) : value :=
  match code with
  | VNum (Int z) => VStr (default "Unknown" (STATUS_CODES z))
  | _ => VStr "Unknown"
  end.

(** What the constructor throws when that check fails. *)
Definition rejected : exn := AssertionError "First argument must be a number (400+)".

(** [new Boom(code, message)], then [reformat()]: the payload starts as
    [{ code, error, message }], the message only when there is one. *)
Definition new_Boom (code message : value) : M boom :=
  if status_accepted code then
    let payload :=
      literal ([("code", code); ("error", status_text code)]
               ++ (if truthy message then [("message", VStr (escapeHtml message))] else [])) in
    let! p := alloc payload in
    ret (Boom true code p (if truthy message then Some message else None))
  else throw rejected.

(** ** [error.js] *)

Definition DEFAULTS_object : jsobject :=
  literal [("message", VStr "Unspecified error");
           ("info", VStr "https://github.com/mozilla/fxa-auth-server/blob/master/docs/api.md#response-format")].

(** [var DEFAULTS = {..}] is the first object the module allocates. *)
Definition DEFAULTS : loc := 0%nat.

Definition module_loaded (w : world) : Prop :=
  heap w !! DEFAULTS = Some DEFAULTS_object.

(** [/^Payload (?:content length|size) greater than maximum allowed/] *)
Definition TOO_LARGE : regex :=
  RSeq (RLit "Payload ")
       (RSeq (RAlt (RLit "content length") (RLit "size"))
             (RLit " greater than maximum allowed")).

(** *** The response constructors

    Each one builds an object literal and hands it to [errors.wrap], which
    they take as an argument: [wrap] calls some of them back. *)
Section Constructors.

Variable errors_wrap : loc -> M boom.

Definition wrap_literal (fields : list (string * value)) : M boom :=
  let! o := alloc (literal fields) in errors_wrap o.

Definition accountExists (email : value) : M boom :=
  wrap_literal [("code", num 400); ("errno", num 101);
                ("message", VStr "Account already exists"); ("email", email)].

Definition unknownAccount (email : value) : M boom :=
  wrap_literal [("code", num 400); ("errno", num 102);
                ("message", VStr "Unknown account"); ("email", email)].

Definition incorrectPassword (email : value) : M boom :=
  wrap_literal [("code", num 400); ("errno", num 103);
                ("message", VStr "Incorrect password"); ("email", email)].

Definition unverifiedAccount : M boom :=
  wrap_literal [("code", num 400); ("errno", num 104);
                ("message", VStr "Unverified account")].

(** [details] is merged into the literal before it is wrapped; [Hoek.merge]
    returns its target as it is when there are none. *)
Definition invalidVerificationCode (details : option loc) : M boom :=
  let! o := alloc (literal [("code", num 400); ("errno", num 105);
                            ("message", VStr "Invalid verification code")]) in
  let! o' := match details with
             | Some d => Hoek.merge o d true
             | None => ret o
             end in
  errors_wrap o'.

Definition invalidRequestBody : M boom :=
  wrap_literal [("code", num 400); ("errno", num 106);
                ("message", VStr "Invalid JSON in request body")].

(** ['..' + (param ? ': ' + param : '')] *)
Definition with_param (text : string) (param : value) : M value :=
  let! suffix :=
    (if truthy param then let! s := to_string param in ret (": " +:+ s)
     else ret "") in
  ret (VStr (text +:+ suffix)).

Definition invalidRequestParameter (param : value) : M boom :=
  let! message := with_param "Invalid parameter in request body" param in
  wrap_literal [("code", num 400); ("errno", num 107);
                ("message", message);
                ("param", param)].

Definition missingRequestParameter (param : value) : M boom :=
  let! message := with_param "Missing parameter in request body" param in
  wrap_literal [("code", num 400); ("errno", num 108);
                ("message", message);
                ("param", param)].

Definition invalidSignature (message : value) : M boom :=
  wrap_literal [("code", num 401); ("errno", num 109);
                ("message", js_or message (VStr "Invalid request signature"))].

Definition invalidToken : M boom :=
  wrap_literal [("code", num 401); ("errno", num 110);
                ("message", VStr "Invalid authentication token in request signature")].

Definition invalidTimestamp : M boom :=
  let! ms := Date_now in
  wrap_literal [("code", num 401); ("errno", num 111);
                ("message", VStr "Invalid timestamp in request signature");
                ("serverTime", num (ms / 1000))].

Definition invalidNonce : M boom :=
  wrap_literal [("code", num 401); ("errno", num 115);
                ("message", VStr "Invalid nonce in request signature")].

Definition missingContentLength : M boom :=
  wrap_literal [("code", num 411); ("errno", num 112);
                ("message", VStr "Missing content-length header")].

Definition requestBodyTooLarge : M boom :=
  wrap_literal [("code", num 413); ("errno", num 113);
                ("message", VStr "Request body too large")].

Definition tooManyRequests : M boom :=
  wrap_literal [("code", num 429); ("errno", num 114);
                ("message", VStr "Client has sent too many requests");
                ("retryAfter", num 30)].

Definition serviceUnavailable : M boom :=
  wrap_literal [("code", num 503); ("errno", num 201);
                ("message", VStr "Service unavailable");
                ("retryAfter", num 30)].

End Constructors.

(** [x().response.payload] *)
Definition payload_of (x : M boom) : M loc :=
  let! b := x in ret (response_payload b).

(** *** [errors.wrap]

    [wrap] and the constructors call each other; [fuel] bounds the depth of
    that recursion (two levels are all it ever takes, see [wrap_fuel]). *)
Fixpoint wrap (fuel : nat) (srcObject : loc) {struct fuel} : M boom :=
  match fuel with
  | O => out_of_fuel
  | S fuel' =>
      let errors_wrap := wrap fuel' in
      (* Merge object properties with defaults. *)
      let! object := Hoek.applyToDefaults DEFAULTS srcObject in
      let! own := hasOwnProperty srcObject "message" in
      (if own then
         let! m := get srcObject "message" in set object "message" m
       else ret tt);;;
      (* Intuit an errno for the error, if it doesn't have one. *)
      let! errno := get object "errno" in
      let! object :=
        (if is_undefined errno then
           let! code := get object "code" in
           if strict_eq code (num 401) then
             (* These are common errors generated by Hawk auth lib. *)
             let! message := get object "message" in
             if strict_eq message (VStr "Unknown credentials") then
               payload_of (invalidToken errors_wrap)
             else if strict_eq message (VStr "Invalid credentials") then
               payload_of (invalidToken errors_wrap)
             else if strict_eq message (VStr "Stale timestamp") then
               payload_of (invalidTimestamp errors_wrap)
             else if strict_eq message (VStr "Invalid nonce") then
               payload_of (invalidNonce errors_wrap)
             else
               payload_of (invalidSignature errors_wrap message)
           else if strict_eq code (num 400) then
             let! message := get object "message" in
             let! too_large := RegExp_test TOO_LARGE message in
             if too_large then
               payload_of (requestBodyTooLarge errors_wrap)
             else ret object
           else ret object
         else ret object) in
      (* Intuit a status code for the error if it doesn't have one,
         or if it has some other garbage in its 'code' attribute. *)
      let! code := get object "code" in
      (if is_undefined code then
         let! errno := get object "errno" in
         if negb (Array_indexOf [num 109; num 110; num 111] errno =? -1) then
           set object "code" (num 401)
         else
           set object "code" (num 400)
       else if negb (is_number code) then
         set object "code" (num 500)
       else ret tt);;;
      (* If we weren't able to identify a specific type of error,
         default to a generic "unspecified error" response. *)
      let! errno := get object "errno" in
      (if is_undefined errno then
         log_error "error.wrap" "unexpected error" object;;;
         set object "errno" (num 999)
       else ret tt);;;
      (* Now we can safely boomify it. *)
      let! code := get object "code" in
      let! message := get object "message" in
      let! b := new_Boom code message in
      Hoek.merge (response_payload b) object true;;;
      ret b
  end.

(** ** [wrap], step by step

    The body of [wrap] cut into its five steps, each under the comment that
    introduces it in the source, so that each can be run on its own;
    [wrap_unfold] shows that [wrap] is the five in a row. *)

(** "Merge object properties with defaults.  The source object might be an
    Error instance whose 'message' property is non-enumerable, so we have to
    special-case that one." *)
Definition merge_with_defaults (srcObject : loc) : M loc :=
  let! object := Hoek.applyToDefaults DEFAULTS srcObject in
  let! own := hasOwnProperty srcObject "message" in
  (if own then
     let! m := get srcObject "message" in set object "message" m
   else ret tt);;;
  ret object.

(** "Intuit an errno for the error, if it doesn't have one."  The result is
    what [object] is bound to afterwards: the payload of a constructor's
    response, or the object itself. *)
Definition intuit_errno (errors_wrap : loc -> M boom) (object : loc) : M loc :=
  let! errno := get object "errno" in
  if is_undefined errno then
    let! code := get object "code" in
    if strict_eq code (num 401) then
      let! message := get object "message" in
      if strict_eq message (VStr "Unknown credentials") then
        payload_of (invalidToken errors_wrap)
      else if strict_eq message (VStr "Invalid credentials") then
        payload_of (invalidToken errors_wrap)
      else if strict_eq message (VStr "Stale timestamp") then
        payload_of (invalidTimestamp errors_wrap)
      else if strict_eq message (VStr "Invalid nonce") then
        payload_of (invalidNonce errors_wrap)
      else
        payload_of (invalidSignature errors_wrap message)
    else if strict_eq code (num 400) then
      let! message := get object "message" in
      let! too_large := RegExp_test TOO_LARGE message in
      if too_large then
        payload_of (requestBodyTooLarge errors_wrap)
      else ret object
    else ret object
  else ret object.

(** "Intuit a status code for the error if it doesn't have one, or if it has
    some other garbage in its 'code' attribute." *)
Definition intuit_code (object : loc) : M unit :=
  let! code := get object "code" in
  if is_undefined code then
    let! errno := get object "errno" in
    if negb (Array_indexOf [num 109; num 110; num 111] errno =? -1) then
      set object "code" (num 401)
    else
      set object "code" (num 400)
  else if negb (is_number code) then
    set object "code" (num 500)
  else ret tt.

(** "If we weren't able to identify a specific type of error, default to a
    generic 'unspecified error' response." *)
Definition default_errno (object : loc) : M unit :=
  let! errno := get object "errno" in
  if is_undefined errno then
    log_error "error.wrap" "unexpected error" object;;;
    set object "errno" (num 999)
  else ret tt.

(** "Now we can safely boomify it." *)
Definition boomify (object : loc) : M boom :=
  let! code := get object "code" in
  let! message := get object "message" in
  let! b := new_Boom code message in
  Hoek.merge (response_payload b) object true;;;
  ret b.

(** The three together, on the object [intuit_errno] settled on. *)
Definition conclude (object : loc) : M boom :=
  intuit_code object;;; default_errno object;;; boomify object.

(** ** The same, on the objects themselves

    What each block leaves in the working object, as functions of its
    content. *)

(** The defaults with the own enumerable fields of [o] laid over them. *)
Definition overlay (o : jsobject) : jsobject :=
  Hoek.merge_object false (Hoek.clone_object DEFAULTS_object) o.

(** ... and [message] copied over when [o] has one of its own. *)
Definition working (o : jsobject) : jsobject :=
  if bool_decide (is_Some (o !! "message")) then
    set_field (overlay o) "message" (field o "message")
  else overlay o.

Definition sanitize (obj : jsobject) : jsobject :=
  if is_undefined (field obj "code") then
    if negb (Array_indexOf [num 109; num 110; num 111] (field obj "errno") =? -1) then
      set_field obj "code" (num 401)
    else set_field obj "code" (num 400)
  else if negb (is_number (field obj "code")) then set_field obj "code" (num 500)
  else obj.

Definition finish (obj : jsobject) : jsobject :=
  if is_undefined (field obj "errno") then set_field obj "errno" (num 999) else obj.

Definition unexpected (l : loc) (obj : jsobject) : list log_event :=
  if is_undefined (field obj "errno") then
    [LogEvent error "error.wrap" "unexpected error" l]
  else [].

Definition boom_payload (code message : value) : jsobject :=
  literal ([("code", code); ("error", status_text code)]
           ++ (if truthy message then [("message", VStr (escapeHtml message))] else [])).

Definition final_payload (obj : jsobject) : jsobject :=
  Hoek.merge_object true (boom_payload (field obj "code") (field obj "message")) obj.

Definition boom_of (obj : jsobject) (p : loc) : boom :=
  Boom true (field obj "code") p
       (if truthy (field obj "message") then Some (field obj "message") else None).

(** The working object at the end of a call that called no constructor. *)
Definition wrapped (o : jsobject) : jsobject := finish (sanitize (working o)).

(** ** Reading an input and an answer *)

Definition nullish (v : value) : bool :=
  match v with
  | VUndef | VNull => true
  | _ => false
  end.

(** What [Hoek.applyToDefaults] takes from the input for a field the
    defaults do not have: an own enumerable value unless it is [null] or
    [undefined], and nothing under the key [__proto__]. *)
Definition supplied (o : jsobject) (k : string) : value :=
  if decide (k = "__proto__") then VUndef
  else
    match o !! k with
    | Some p => if enumerable p && negb (nullish (pvalue p)) then pvalue p else VUndef
    | None => VUndef
    end.

(** The message [wrap] goes on with: the input's own one, whatever it holds,
    and the default when it has none. *)
Definition message_of (o : jsobject) : value :=
  match o !! "message" with
  | Some p => pvalue p
  | None => VStr "Unspecified error"
  end.

(** [TOO_LARGE.test(v)] where the conversion to a string does not throw. *)
Definition matches (r : regex) (v : value) : bool :=
  match ToString v with
  | Some s => test r s
  | None => false
  end.

(** Which constructor [intuit_errno] calls for a working object, if any. *)
Definition guess (obj : jsobject) : option ((loc -> M boom) -> M boom) :=
  if is_undefined (field obj "errno") then
    if strict_eq (field obj "code") (num 401) then
      if strict_eq (field obj "message") (VStr "Unknown credentials") then
        Some invalidToken
      else if strict_eq (field obj "message") (VStr "Invalid credentials") then
        Some invalidToken
      else if strict_eq (field obj "message") (VStr "Stale timestamp") then
        Some invalidTimestamp
      else if strict_eq (field obj "message") (VStr "Invalid nonce") then
        Some invalidNonce
      else
        Some (fun errors_wrap => invalidSignature errors_wrap (field obj "message"))
    else if strict_eq (field obj "code") (num 400) then
      if matches TOO_LARGE (field obj "message") then
        Some requestBodyTooLarge
      else None
    else None
  else None.

(** The input can be classified: it has no [errno], and its status is 401,
    or 400 with a message that matches [TOO_LARGE]. *)
Definition classifiable (o : jsobject) : bool :=
  is_undefined (supplied o "errno")
  && (strict_eq (supplied o "code") (num 401)
      || (strict_eq (supplied o "code") (num 400)
          && matches TOO_LARGE (message_of o))).

(** The working object is tried against the pattern, and its message cannot
    be turned into a string. *)
Definition unreadable (obj : jsobject) : bool :=
  is_undefined (field obj "errno")
  && strict_eq (field obj "code") (num 400)
  && negb (bool_decide (is_Some (ToString (field obj "message")))).

(** The input reaches the test of line 59: no [errno], status 400. *)
Definition tested (o : jsobject) : bool :=
  is_undefined (supplied o "errno") && strict_eq (supplied o "code") (num 400).

(** The input gets through the first half of [wrap]: it does not hide
    [hasOwnProperty], its merge with the defaults stays clear of the
    prototype, and its message can be turned into a string where the
    pattern is tried on it. *)
Definition passes (o : jsobject) : Prop :=
  o !! "hasOwnProperty" = None
  /\ Hoek.reaches_prototype false o = None
  /\ (tested o = true -> is_Some (ToString (message_of o))).

(** No own field named [hasOwnProperty] or [__proto__]. *)
Definition ordinary (o : jsobject) : Prop :=
  o !! "hasOwnProperty" = None /\ o !! "__proto__" = None.

(** The inputs the statements about arbitrary inputs are made for.  The
    object is [ordinary]; its message is not an object (the pattern and
    [escapeHtml] are made for strings, and convert what else they are
    given); and no object nested in it, at any depth, has a field named
    [hasOwnProperty] or [__proto__], the two names on which copying an
    object field by field, as a library may, and copying it whole, as is
    done here, could come apart. *)
Definition plain (o : jsobject) : bool :=
  bool_decide (o !! "hasOwnProperty" = None)
  && bool_decide (o !! "__proto__" = None)
  && primitive (message_of o)
  && map_fold (fun _ p acc => acc && negb (exotic (pvalue p))) true o.

(** [errno] is one of 109, 110, 111. *)
Definition signature_family (v : value) : bool :=
  match v with
  | VNum (Int z) => (z =? 109) || (z =? 110) || (z =? 111)
  | _ => false
  end.

(** The status [wrap] settles on for an input's [code] and [errno]. *)
Definition expected_code (code errno : value) : value :=
  if is_undefined code then
    if signature_family errno then num 401 else num 400
  else if is_number code then code
  else num 500.

(** The statuses the Boom constructor takes once sanitized: none, one that
    is not a number, or a finite number from 400 up. *)
Definition status_ok (code : value) : bool :=
  is_undefined code || negb (is_number code) || status_accepted code.

(** A string that is not empty. *)
Definition string_ne (v : value) : bool :=
  match v with
  | VStr s => negb (String.eqb s "")
  | _ => false
  end.

(** Every property is enumerable. *)
Definition all_enumerable (o : jsobject) : Prop :=
  forall k p, o !! k = Some p -> enumerable p = true.

(** The payload of the response a call returned, read from the store it
    left; [None] when it threw. *)
Definition response (r : outcome boom * world) : option jsobject :=
  match r with
  | (Returned b, w') => heap w' !! response_payload b
  | _ => None
  end.

(** One field of the answer. *)
Definition answer (r : outcome boom * world) (k : string) : option value :=
  (fun p => field p k) <$> response r.

(** The store right after the module is loaded and one input object
    allocated, with the clock at [ms]. *)
Definition started (ms : Z) (o : jsobject) : world :=
  World [DEFAULTS_object; o] ms [].

(** [errors.wrap(o)] for the object literal [fields], in a fresh module. *)
Definition call (ms : Z) (fields : list (string * value)) : outcome boom * world :=
  wrap 2 1%nat (started ms (literal fields)).

(** A working object ready for the Boom constructor: no field that hides
    [hasOwnProperty] or reaches the prototype, every property enumerable, a
    status the constructor takes, an [errno], a message and a documentation
    reference, and no [null] or [undefined] field but possibly the
    message. *)
Definition settled (obj : jsobject) : Prop :=
  ordinary obj
  /\ all_enumerable obj
  /\ status_accepted (field obj "code") = true
  /\ nullish (field obj "errno") = false
  /\ is_Some (obj !! "message")
  /\ is_Some (obj !! "info")
  /\ forall k q, obj !! k = Some q -> k <> "message" -> nullish (pvalue q) = false.

(** ** The pattern *)

Lemma strip_prefix_Some (p s t : string) :
  strip_prefix p s = Some t <-> s = p +:+ t.
Proof.
  revert s. induction p as [|c p IH]; intros s; simpl.
  - split; [by intros [= ->]|by intros ->].
  - destruct s as [|d s]; [done|].
    destruct (Ascii.eqb_spec c d) as [->|Hne].
    + rewrite IH. split; [by intros ->|].
      cbn [String.append]. by intros [= ->].
    + split; [done|]. cbn [String.append]. intros [= -> _]. done.
Qed.

Lemma rmatch_lit (p s : string) :
  rmatch (RLit p) s <> [] <-> exists rest, s = p +:+ rest.
Proof.
  simpl. destruct (strip_prefix p s) as [t|] eqn:E.
  - apply strip_prefix_Some in E. split; [eauto|done].
  - split; [done|]. intros [rest Hr]. apply strip_prefix_Some in Hr. congruence.
Qed.

(** ** The store as a list *)

Lemma heap_last (h : list jsobject) (x : jsobject) :
  (h ++ [x]) !! length h = Some x.
Proof. by apply list_lookup_middle. Qed.

Lemma heap_old (h : list jsobject) (x o : jsobject) (l : loc) :
  h !! l = Some o -> (h ++ [x]) !! l = Some o.
Proof. apply lookup_app_l_Some. Qed.

Lemma heap_set_last (h : list jsobject) (x y : jsobject) :
  <[length h := y]> (h ++ [x]) = h ++ [y].
Proof.
  rewrite insert_app_r_alt by lia.
  by rewrite Nat.sub_diag.
Qed.

Lemma heap_set_same (h : list jsobject) (l : loc) (o : jsobject) :
  h !! l = Some o -> <[l := o]> h = h.
Proof. apply list_insert_id. Qed.

(** ** Running the steps *)

Lemma bind_run {A B} (m : M A) (k : A -> M B) (w w' : world) (a : A) :
  m w = (Returned a, w') -> bind m k w = k a w'.
Proof. intros E. unfold bind. by rewrite E. Qed.

Lemma bind_throw {A B} (m : M A) (k : A -> M B) (w w' : world) (e : exn) :
  m w = (Threw e, w') -> bind m k w = (Threw e, w').
Proof. intros E. unfold bind. by rewrite E. Qed.

Lemma bind_depart {A B} (m : M A) (k : A -> M B) (w w' : world) (d : departure) :
  m w = (Unfollowed d, w') -> bind m k w = (Unfollowed d, w').
Proof. intros E. unfold bind. by rewrite E. Qed.

Ltac lookup_tac :=
  first [ eassumption | apply heap_last | apply heap_old; lookup_tac ].

Ltac rewrite_lookup :=
  first
    [ rewrite heap_last
    | erewrite heap_old by lookup_tac
    | match goal with H : _ !! _ = Some _ |- _ => rewrite H end ].

Ltac munfold :=
  cbv beta iota delta
    [bind ret load store alloc get set hasOwnProperty Date_now log_error throw
     depart payload_of Hoek.merge Hoek.clone Hoek.applyToDefaults heap clock log
     response_payload].

Ltac mrun := munfold; repeat (first [rewrite heap_set_last | rewrite_lookup]; munfold).

(** The first step: the merge may reach the prototype, and the call of
    [hasOwnProperty] may find a field in its way. *)
Lemma merge_with_defaults_run (src : loc) (o : jsobject) (h : list jsobject)
    (c : Z) (lg : list log_event) :
  h !! DEFAULTS = Some DEFAULTS_object ->
  h !! src = Some o ->
  merge_with_defaults src (World h c lg) =
  match Hoek.reaches_prototype false o with
  | Some d => (Unfollowed d, World (h ++ [Hoek.clone_object DEFAULTS_object]) c lg)
  | None =>
      match o !! "hasOwnProperty" with
      | Some _ => (Threw not_a_function, World (h ++ [overlay o]) c lg)
      | None => (Returned (length h), World (h ++ [working o]) c lg)
      end
  end.
Proof.
  intros Hd Hs. unfold merge_with_defaults, working, overlay.
  mrun. destruct (Hoek.reaches_prototype false o); mrun; [reflexivity|].
  destruct (o !! "hasOwnProperty"); mrun; [reflexivity|].
  destruct (bool_decide (is_Some (o !! "message"))); mrun; reflexivity.
Qed.

Lemma passes_run (src : loc) (o : jsobject) (h : list jsobject)
    (c : Z) (lg : list log_event) :
  h !! DEFAULTS = Some DEFAULTS_object ->
  h !! src = Some o ->
  passes o ->
  merge_with_defaults src (World h c lg) =
  (Returned (length h), World (h ++ [working o]) c lg).
Proof.
  intros Hd Hs (Hh & Hp & _).
  by rewrite (merge_with_defaults_run src o), Hp, Hh.
Qed.

(** ** Fields of the working object *)

Lemma field_set_field_eq (o : jsobject) (k : string) (v : value) :
  field (set_field o k v) k = v.
Proof.
  unfold field, set_field. rewrite lookup_insert_eq.
  by destruct (o !! k).
Qed.

Lemma field_set_field_ne (o : jsobject) (k k' : string) (v : value) :
  k <> k' -> field (set_field o k v) k' = field o k'.
Proof. intros Hne. unfold field, set_field. by rewrite lookup_insert_ne. Qed.

Lemma all_enumerable_set_field (o : jsobject) (k : string) (v : value) :
  all_enumerable o -> all_enumerable (set_field o k v).
Proof.
  intros Ho k' p. unfold set_field.
  destruct (decide (k = k')) as [<-|Hne].
  - rewrite lookup_insert_eq. intros [= <-].
    destruct (o !! k) as [q|] eqn:E; [|done]. simpl. by eapply Ho.
  - rewrite lookup_insert_ne by done. apply Ho.
Qed.

Lemma is_Some_set_field (o : jsobject) (k k' : string) (v : value) :
  is_Some (o !! k') \/ k = k' -> is_Some (set_field o k v !! k').
Proof.
  unfold set_field. intros [H| ->].
  - destruct (decide (k = k')) as [->|Hne];
      [rewrite lookup_insert_eq; eauto | by rewrite lookup_insert_ne].
  - rewrite lookup_insert_eq; eauto.
Qed.

Lemma all_enumerable_literal (fields : list (string * value)) :
  all_enumerable (literal fields).
Proof.
  intros k p. unfold literal. intros H.
  apply elem_of_list_to_map_2 in H.
  apply list_elem_of_fmap in H as [[k' v] [[= -> ->] _]]. done.
Qed.

Lemma lookup_merge_object (flag : bool) (t s : jsobject) (k : string) :
  k <> "__proto__" ->
  Hoek.merge_object flag t s !! k = Hoek.merge_property flag (t !! k) (s !! k).
Proof.
  intros Hk. unfold Hoek.merge_object. rewrite lookup_merge, lookup_delete_ne by done.
  by destruct (t !! k), (s !! k).
Qed.

(** Nothing is assigned under [__proto__]. *)
Lemma lookup_merge_object_proto (flag : bool) (t s : jsobject) :
  Hoek.merge_object flag t s !! "__proto__" = t !! "__proto__".
Proof.
  unfold Hoek.merge_object. rewrite lookup_merge, lookup_delete_eq.
  by destruct (t !! "__proto__").
Qed.

Lemma all_enumerable_merge_object (flag : bool) (t s : jsobject) :
  all_enumerable t -> all_enumerable (Hoek.merge_object flag t s).
Proof.
  intros Ht k p. destruct (decide (k = "__proto__")) as [->|Hk].
  { rewrite lookup_merge_object_proto. apply Ht. }
  rewrite lookup_merge_object by done.
  unfold Hoek.merge_property.
  destruct (s !! k) as [q|]; [|apply Ht].
  destruct (enumerable q); [|apply Ht].
  destruct (Hoek.merge_value _ _ _); [|apply Ht].
  intros [= <-]. destruct (t !! k) as [r|] eqn:E; [|done]. simpl. by eapply Ht.
Qed.

Lemma clone_DEFAULTS : Hoek.clone_object DEFAULTS_object = DEFAULTS_object.
Proof. by vm_compute. Qed.

Lemma DEFAULTS_lookup_other (k : string) :
  k <> "message" -> k <> "info" -> DEFAULTS_object !! k = None.
Proof.
  intros H1 H2. unfold DEFAULTS_object, literal. simpl.
  rewrite lookup_insert_ne by done. rewrite lookup_insert_ne by done.
  apply lookup_empty.
Qed.

Lemma merge_value_flat (flag : bool) (t s : value) :
  (forall f, t <> VObj f) -> nullish s = false ->
  Hoek.merge_value flag t s = Some s.
Proof.
  intros Ht Hs. destruct s; try done.
  simpl. destruct t; try done. by destruct (Ht fields0).
Qed.

Lemma merge_value_override (t s : value) :
  (forall f, t <> VObj f) -> Hoek.merge_value true t s = Some s.
Proof.
  intros Ht. destruct s; try done.
  simpl. destruct t; try done. by destruct (Ht fields0).
Qed.

Lemma field_overlay (o : jsobject) (k : string) :
  k <> "message" -> k <> "info" -> field (overlay o) k = supplied o k.
Proof.
  intros H1 H2. unfold field, overlay, supplied. rewrite clone_DEFAULTS.
  case_decide as Hk.
  { subst k. by rewrite lookup_merge_object_proto. }
  rewrite lookup_merge_object, DEFAULTS_lookup_other by done.
  unfold Hoek.merge_property.
  destruct (o !! k) as [[[] v]|]; simpl; try done.
  destruct v; simpl; done.
Qed.

Lemma all_enumerable_working (o : jsobject) : all_enumerable (working o).
Proof.
  assert (all_enumerable (overlay o)) as H.
  { apply all_enumerable_merge_object. rewrite clone_DEFAULTS.
    apply all_enumerable_literal. }
  unfold working. case_bool_decide; [by apply all_enumerable_set_field|done].
Qed.

Lemma field_working (o : jsobject) (k : string) :
  k <> "message" -> k <> "info" -> field (working o) k = supplied o k.
Proof.
  intros H1 H2. unfold working. case_bool_decide.
  - rewrite field_set_field_ne by done. by apply field_overlay.
  - by apply field_overlay.
Qed.

Lemma field_working_message (o : jsobject) :
  field (working o) "message" = message_of o.
Proof.
  unfold working, message_of. case_bool_decide as H.
  - rewrite field_set_field_eq. unfold field. by destruct H as [p ->].
  - unfold field, overlay. rewrite lookup_merge_object, clone_DEFAULTS by done.
    destruct (o !! "message") as [p|] eqn:E; [destruct H; eauto|].
    done.
Qed.

Lemma working_has_message (o : jsobject) : is_Some (working o !! "message").
Proof.
  unfold working. case_bool_decide as H.
  - apply is_Some_set_field. by right.
  - unfold overlay. rewrite lookup_merge_object, clone_DEFAULTS by done.
    destruct (o !! "message") as [p|] eqn:E; [destruct H; eauto|].
    by eexists.
Qed.

(** What the working object takes from the input under the two names that
    matter to the calls that follow. *)
Lemma lookup_overlay_names (o : jsobject) :
  overlay o !! "__proto__" = None
  /\ (o !! "hasOwnProperty" = None -> overlay o !! "hasOwnProperty" = None).
Proof.
  unfold overlay. rewrite clone_DEFAULTS. split.
  - by rewrite lookup_merge_object_proto.
  - intros Ho. rewrite lookup_merge_object by done. by rewrite Ho.
Qed.

Lemma ordinary_set_field (obj : jsobject) (k : string) (v : value) :
  k <> "hasOwnProperty" -> k <> "__proto__" ->
  ordinary obj -> ordinary (set_field obj k v).
Proof.
  intros H1 H2 [Hh Hp]. unfold ordinary, set_field.
  by rewrite !lookup_insert_ne.
Qed.

Lemma ordinary_working (o : jsobject) :
  o !! "hasOwnProperty" = None -> ordinary (working o).
Proof.
  intros Ho. destruct (lookup_overlay_names o) as [Hp Hh].
  assert (ordinary (overlay o)) as H by (split; auto).
  unfold working. case_bool_decide; [by apply ordinary_set_field|done].
Qed.

(** ** The last three steps *)

Lemma intuit_code_run (l : loc) (obj : jsobject) (h : list jsobject)
    (c : Z) (lg : list log_event) :
  h !! l = Some obj ->
  intuit_code l (World h c lg) = (Returned tt, World (<[l := sanitize obj]> h) c lg).
Proof.
  intros Hl. unfold intuit_code, sanitize. mrun.
  destruct (is_undefined (field obj "code")); mrun.
  - destruct (negb _); mrun; reflexivity.
  - destruct (negb _); mrun; [reflexivity|].
    by rewrite heap_set_same.
Qed.

Lemma default_errno_run (l : loc) (obj : jsobject) (h : list jsobject)
    (c : Z) (lg : list log_event) :
  h !! l = Some obj ->
  default_errno l (World h c lg) =
  (Returned tt, World (<[l := finish obj]> h) c (lg ++ unexpected l obj)).
Proof.
  intros Hl. unfold default_errno, finish, unexpected. mrun.
  destruct (is_undefined (field obj "errno")); mrun.
  - reflexivity.
  - by rewrite heap_set_same, app_nil_r.
Qed.

Lemma reaches_prototype_None (flag : bool) (obj : jsobject) :
  obj !! "__proto__" = None -> Hoek.reaches_prototype flag obj = None.
Proof. intros H. unfold Hoek.reaches_prototype. by rewrite H. Qed.

Lemma lookup_sanitize_None (obj : jsobject) (k : string) :
  k <> "code" -> obj !! k = None -> sanitize obj !! k = None.
Proof.
  intros Hk H. unfold sanitize, set_field.
  repeat case_match; try done; by rewrite lookup_insert_ne.
Qed.

Lemma lookup_finish_None (obj : jsobject) (k : string) :
  k <> "errno" -> obj !! k = None -> finish obj !! k = None.
Proof.
  intros Hk H. unfold finish, set_field.
  case_match; try done; by rewrite lookup_insert_ne.
Qed.

Lemma boomify_run (l : loc) (obj : jsobject) (h : list jsobject)
    (c : Z) (lg : list log_event) :
  h !! l = Some obj ->
  obj !! "__proto__" = None ->
  boomify l (World h c lg) =
  if status_accepted (field obj "code") then
    (Returned (boom_of obj (length h)), World (h ++ [final_payload obj]) c lg)
  else (Threw rejected, World h c lg).
Proof.
  intros Hl Hp. unfold boomify, new_Boom. mrun.
  destruct (status_accepted (field obj "code")); mrun; [|reflexivity].
  rewrite reaches_prototype_None by done. mrun. reflexivity.
Qed.

Lemma conclude_run (l : loc) (obj : jsobject) (h : list jsobject)
    (c : Z) (lg : list log_event) :
  h !! l = Some obj ->
  obj !! "__proto__" = None ->
  conclude l (World h c lg) =
  let obj' := finish (sanitize obj) in
  let h' := <[l := obj']> h in
  let lg' := lg ++ unexpected l (sanitize obj) in
  if status_accepted (field obj' "code") then
    (Returned (boom_of obj' (length h)), World (h' ++ [final_payload obj']) c lg')
  else (Threw rejected, World h' c lg').
Proof.
  intros Hl Hp. unfold conclude.
  assert (l < length h)%nat as Hlt by (by eapply lookup_lt_Some).
  erewrite bind_run; [|by apply intuit_code_run].
  erewrite bind_run;
    [|apply default_errno_run; by apply list_lookup_insert_eq].
  rewrite list_insert_insert_eq.
  erewrite boomify_run;
    [|by apply list_lookup_insert_eq
     |by apply lookup_finish_None, lookup_sanitize_None].
  by rewrite length_insert.
Qed.

Lemma bind_assoc {A B C} (m : M A) (k : A -> M B) (k' : B -> M C) (w : world) :
  bind (bind m k) k' w = bind m (fun a => bind (k a) k') w.
Proof. unfold bind. by destruct (m w) as [[]]. Qed.

Lemma bind_ext {A B} (m : M A) (k k' : A -> M B) (w : world) :
  (forall a w', k a w' = k' a w') -> bind m k w = bind m k' w.
Proof. intros H. unfold bind. destruct (m w) as [[]]; [apply H|done..]. Qed.

Lemma bind_ret {A B} (a : A) (k : A -> M B) (w : world) :
  bind (ret a) k w = k a w.
Proof. reflexivity. Qed.

(** [wrap] is its five steps in a row. *)
Lemma wrap_unfold (n : nat) (src : loc) (w : world) :
  wrap (S n) src w =
  (let! object := merge_with_defaults src in
   let! object := intuit_errno (wrap n) object in
   conclude object) w.
Proof.
  cbn [wrap]. unfold merge_with_defaults, intuit_errno, conclude, intuit_code,
    default_errno, boomify.
  repeat first [ rewrite bind_assoc | rewrite bind_ret | apply bind_ext; intros ? ? ].
  reflexivity.
Qed.

(** ** The guess of an [errno] *)

Lemma strict_eq_400_401 (v : value) :
  strict_eq v (num 400) = true -> strict_eq v (num 401) = false.
Proof.
  destruct v as [| | |[z| | |]| |]; try done. cbn [strict_eq num number_eqb].
  intros ->%Z.eqb_eq. done.
Qed.

Lemma intuit_errno_run (errors_wrap : loc -> M boom) (l : loc) (obj : jsobject)
    (h : list jsobject) (c : Z) (lg : list log_event) :
  h !! l = Some obj ->
  intuit_errno errors_wrap l (World h c lg) =
  if unreadable obj then (Threw cannot_convert, World h c lg)
  else
    match guess obj with
    | Some k => payload_of (k errors_wrap) (World h c lg)
    | None => (Returned l, World h c lg)
    end.
Proof.
  intros Hl. unfold intuit_errno, guess, unreadable. mrun.
  destruct (is_undefined (field obj "errno")); mrun; [|reflexivity].
  destruct (strict_eq (field obj "code") (num 400)) eqn:E400.
  - rewrite (strict_eq_400_401 _ E400). mrun.
    unfold RegExp_test, to_string, matches.
    destruct (ToString (field obj "message")) as [s|]; mrun; [|reflexivity].
    cbn [andb negb]. rewrite bool_decide_eq_true_2 by eauto. cbn [negb].
    destruct (test TOO_LARGE s); reflexivity.
  - cbn [andb]. destruct (strict_eq (field obj "code") (num 401)); mrun; [|reflexivity].
    repeat (destruct (strict_eq (field obj "message") _); [reflexivity|]).
    reflexivity.
Qed.

Lemma working_no_proto (o : jsobject) : working o !! "__proto__" = None.
Proof.
  destruct (lookup_overlay_names o) as [Hp _].
  unfold working, set_field. case_bool_decide; [|done].
  by rewrite lookup_insert_ne.
Qed.

Lemma passes_readable (o : jsobject) : passes o -> unreadable (working o) = false.
Proof.
  intros (_ & _ & Ht). unfold unreadable, tested in *.
  rewrite !field_working, field_working_message by done.
  destruct (is_undefined (supplied o "errno")); [|done].
  destruct (strict_eq (supplied o "code") (num 400)); [|done].
  cbn [andb]. by rewrite bool_decide_eq_true_2 by auto.
Qed.

Lemma field_sanitize_ne (obj : jsobject) (k : string) :
  k <> "code" -> field (sanitize obj) k = field obj k.
Proof.
  intros Hk. unfold sanitize.
  repeat case_match; try done; by rewrite field_set_field_ne.
Qed.

Lemma field_finish_ne (obj : jsobject) (k : string) :
  k <> "errno" -> field (finish obj) k = field obj k.
Proof.
  intros Hk. unfold finish.
  case_match; try done; by rewrite field_set_field_ne.
Qed.

Lemma unexpected_sanitize (l : loc) (obj : jsobject) :
  unexpected l (sanitize obj) = unexpected l obj.
Proof. unfold unexpected. by rewrite field_sanitize_ne. Qed.

(** A call that calls no constructor. *)
Lemma wrap_direct (n : nat) (src : loc) (o : jsobject) (h : list jsobject)
    (c : Z) (lg : list log_event) :
  h !! DEFAULTS = Some DEFAULTS_object ->
  h !! src = Some o ->
  passes o ->
  guess (working o) = None ->
  wrap (S n) src (World h c lg) =
  if status_accepted (field (wrapped o) "code") then
    (Returned (boom_of (wrapped o) (S (length h))),
     World (h ++ [wrapped o; final_payload (wrapped o)]) c
           (lg ++ unexpected (length h) (working o)))
  else
    (Threw rejected,
     World (h ++ [wrapped o]) c (lg ++ unexpected (length h) (working o))).
Proof.
  intros Hd Hs Hp Hg. rewrite wrap_unfold.
  erewrite bind_run; [|by apply passes_run].
  erewrite bind_run; [|rewrite (intuit_errno_run _ _ (working o)) by apply heap_last;
                       by rewrite passes_readable, Hg].
  rewrite (conclude_run _ (working o)) by (apply heap_last || apply working_no_proto).
  cbv zeta. rewrite heap_set_last, unexpected_sanitize, length_app.
  cbn [length]. rewrite Nat.add_1_r, <- app_assoc. reflexivity.
Qed.

(** A call that calls a constructor goes on with the payload it returned. *)
Lemma wrap_nested (n : nat) (src : loc) (o : jsobject) (h : list jsobject)
    (c : Z) (lg : list log_event) (k : (loc -> M boom) -> M boom)
    (b : boom) (w' : world) :
  h !! DEFAULTS = Some DEFAULTS_object ->
  h !! src = Some o ->
  passes o ->
  guess (working o) = Some k ->
  k (wrap n) (World (h ++ [working o]) c lg) = (Returned b, w') ->
  wrap (S n) src (World h c lg) = conclude (response_payload b) w'.
Proof.
  intros Hd Hs Hp Hg Hk. rewrite wrap_unfold.
  erewrite bind_run; [|by apply passes_run].
  erewrite bind_run; [reflexivity|].
  rewrite (intuit_errno_run _ _ (working o)) by apply heap_last.
  rewrite passes_readable, Hg by done. unfold payload_of. by erewrite bind_run.
Qed.

Lemma readable_passes (o : jsobject) :
  Hoek.reaches_prototype false o = None ->
  o !! "hasOwnProperty" = None ->
  unreadable (working o) = false ->
  passes o.
Proof.
  intros Hr Hh Hu. split; [done|]. split; [done|]. intros Ht.
  destruct (ToString (message_of o)) as [s|] eqn:Es; [eauto|].
  unfold unreadable, tested in *.
  rewrite !field_working, field_working_message, Es in Hu by done.
  apply andb_prop in Ht as [Ht1 Ht2]. by rewrite Ht1, Ht2 in Hu.
Qed.

(** The calls that do not get through the first half of [wrap]. *)
Lemma wrap_stopped (n : nat) (src : loc) (o : jsobject) (h : list jsobject)
    (c : Z) (lg : list log_event) :
  h !! DEFAULTS = Some DEFAULTS_object ->
  h !! src = Some o ->
  match Hoek.reaches_prototype false o with
  | Some d =>
      wrap (S n) src (World h c lg) =
      (Unfollowed d, World (h ++ [DEFAULTS_object]) c lg)
  | None =>
      match o !! "hasOwnProperty" with
      | Some _ =>
          wrap (S n) src (World h c lg) =
          (Threw not_a_function, World (h ++ [overlay o]) c lg)
      | None =>
          unreadable (working o) = true ->
          wrap (S n) src (World h c lg) =
          (Threw cannot_convert, World (h ++ [working o]) c lg)
      end
  end.
Proof.
  intros Hd Hs. pose proof (merge_with_defaults_run src o h c lg Hd Hs) as Hm.
  rewrite clone_DEFAULTS in Hm.
  destruct (Hoek.reaches_prototype false o) as [d|].
  { rewrite wrap_unfold. by erewrite bind_depart. }
  destruct (o !! "hasOwnProperty").
  { rewrite wrap_unfold. by erewrite bind_throw. }
  intros Hu. rewrite wrap_unfold.
  erewrite bind_run; [|done].
  erewrite bind_throw; [done|].
  rewrite (intuit_errno_run _ _ (working o)) by apply heap_last. by rewrite Hu.
Qed.

(** A call that returns was made on an input that passes. *)
Lemma returned_passes (n : nat) (src : loc) (o : jsobject) (h : list jsobject)
    (c : Z) (lg : list log_event) (b : boom) (w' : world) :
  h !! DEFAULTS = Some DEFAULTS_object ->
  h !! src = Some o ->
  wrap (S n) src (World h c lg) = (Returned b, w') ->
  passes o.
Proof.
  intros Hd Hs Hr. pose proof (wrap_stopped n src o h c lg Hd Hs) as Hstop.
  destruct (Hoek.reaches_prototype false o) eqn:Hp; [congruence|].
  destruct (o !! "hasOwnProperty") eqn:Hh; [congruence|].
  destruct (unreadable (working o)) eqn:Hu; [rewrite Hstop in Hr; congruence|].
  by apply readable_passes.
Qed.

(** ** The payload of the response *)

Lemma status_accepted_num (code : value) :
  status_accepted code = true -> exists x, code = VNum x.
Proof. destruct code; try done. eauto. Qed.

Lemma status_text_VStr (code : value) : exists s, status_text code = VStr s.
Proof. destruct code as [| | |[]| |]; simpl; eauto. Qed.

Lemma boom_payload_flat (code message : value) (k : string) (f : gmap string value) :
  status_accepted code = true ->
  from_option pvalue VUndef (boom_payload code message !! k) <> VObj f.
Proof.
  intros (x & ->)%status_accepted_num.
  destruct (status_text_VStr (VNum x)) as [s Hs].
  unfold boom_payload, literal. rewrite Hs.
  destruct (truthy message); simpl;
    repeat (rewrite lookup_insert; case_decide; [done|]);
    by rewrite lookup_empty.
Qed.

Lemma lookup_final_payload (obj : jsobject) (k : string) (p : property) :
  obj !! "__proto__" = None ->
  status_accepted (field obj "code") = true ->
  obj !! k = Some p -> enumerable p = true ->
  exists q, final_payload obj !! k = Some q /\ pvalue q = pvalue p /\ enumerable q = true.
Proof.
  intros Hn Hc Hk Hp. unfold final_payload.
  assert (k <> "__proto__") as Hne by congruence.
  rewrite lookup_merge_object, Hk by done. unfold Hoek.merge_property. rewrite Hp.
  rewrite merge_value_override
    by (intros f; by apply boom_payload_flat).
  eexists. split; [done|]. split.
  - by destruct (boom_payload _ _ !! k).
  - destruct (boom_payload _ _ !! k) as [q|] eqn:E; [|done]. simpl.
    eapply all_enumerable_literal. apply E.
Qed.

Lemma field_final_payload (obj : jsobject) (k : string) :
  obj !! "__proto__" = None ->
  all_enumerable obj ->
  status_accepted (field obj "code") = true ->
  is_Some (obj !! k) ->
  field (final_payload obj) k = field obj k.
Proof.
  intros Hn Ho Hc [p Hk].
  destruct (lookup_final_payload obj k p Hn Hc Hk (Ho _ _ Hk)) as (q & Hq & Hv & _).
  unfold field. by rewrite Hq, Hk.
Qed.

Lemma is_Some_final_payload (obj : jsobject) (k : string) :
  obj !! "__proto__" = None ->
  all_enumerable obj ->
  status_accepted (field obj "code") = true ->
  is_Some (obj !! k) -> is_Some (final_payload obj !! k).
Proof.
  intros Hn Ho Hc [p Hk].
  destruct (lookup_final_payload obj k p Hn Hc Hk (Ho _ _ Hk)) as (q & Hq & _).
  eauto.
Qed.

(** The names an answer cannot have unless the working object has them. *)
Lemma lookup_final_payload_None (obj : jsobject) (k : string) :
  k = "hasOwnProperty" \/ k = "__proto__" ->
  obj !! k = None -> final_payload obj !! k = None.
Proof.
  intros Hk Ho. unfold final_payload.
  assert (boom_payload (field obj "code") (field obj "message") !! k = None) as Hb.
  { unfold boom_payload, literal.
    destruct Hk as [-> | ->]; by destruct (truthy _). }
  destruct (decide (k = "__proto__")) as [->|Hne].
  - by rewrite lookup_merge_object_proto.
  - by rewrite lookup_merge_object, Hb, Ho.
Qed.

Lemma wrapped_no_proto (o : jsobject) : wrapped o !! "__proto__" = None.
Proof.
  unfold wrapped. apply lookup_finish_None, lookup_sanitize_None; try done.
  apply working_no_proto.
Qed.

Lemma final_payload_no_proto (obj : jsobject) :
  obj !! "__proto__" = None -> final_payload obj !! "__proto__" = None.
Proof. apply lookup_final_payload_None. by right. Qed.

Ltac no_proto :=
  repeat first
    [ apply final_payload_no_proto
    | apply wrapped_no_proto
    | apply working_no_proto
    | assumption ].

Lemma all_enumerable_final_payload (obj : jsobject) :
  all_enumerable (final_payload obj).
Proof. apply all_enumerable_merge_object, all_enumerable_literal. Qed.

Lemma field_is_Some (obj : jsobject) (k : string) :
  field obj k <> VUndef -> is_Some (obj !! k).
Proof. unfold field. destruct (obj !! k); [eauto|done]. Qed.

(** An object whose status is a number and whose [errno] is defined goes
    through the second half of [wrap] unchanged. *)
Lemma sanitize_id (obj : jsobject) :
  is_number (field obj "code") = true -> sanitize obj = obj.
Proof.
  intros H. unfold sanitize. rewrite H.
  by destruct (field obj "code").
Qed.

Lemma finish_id (obj : jsobject) :
  is_undefined (field obj "errno") = false -> finish obj = obj.
Proof. intros H. unfold finish. by rewrite H. Qed.

Lemma unexpected_nil (l : loc) (obj : jsobject) :
  is_undefined (field obj "errno") = false -> unexpected l obj = [].
Proof. intros H. unfold unexpected. by rewrite H. Qed.

Lemma guess_defined (obj : jsobject) :
  is_undefined (field obj "errno") = false -> guess obj = None.
Proof. intros H. unfold guess. by rewrite H. Qed.

Lemma wrapped_settled (o : jsobject) :
  is_number (supplied o "code") = true ->
  is_undefined (supplied o "errno") = false ->
  wrapped o = working o.
Proof.
  intros Hc He. unfold wrapped.
  rewrite sanitize_id by (by rewrite field_working).
  apply finish_id. by rewrite field_working.
Qed.

(** An ordinary input with an [errno] gets through the first half of
    [wrap]: the pattern is not tried on it. *)
Lemma defined_passes (o : jsobject) :
  ordinary o -> is_undefined (supplied o "errno") = false -> passes o.
Proof.
  intros [Hh Hp] He. split; [done|]. split; [by apply reaches_prototype_None|].
  unfold tested. by rewrite He.
Qed.

(** The constructors: a literal whose status is [cd >= 400] and whose
    [errno] is a number comes back as the payload of a fresh response, two
    objects behind the literal. *)
Lemma wrap_literal_run (n : nat) (fields : list (string * value)) (cd e : Z)
    (h : list jsobject) (c : Z) (lg : list log_event) :
  h !! DEFAULTS = Some DEFAULTS_object ->
  ordinary (literal fields) ->
  supplied (literal fields) "code" = num cd -> 400 <= cd ->
  supplied (literal fields) "errno" = num e ->
  wrap_literal (wrap (S n)) fields (World h c lg) =
  (Returned (boom_of (working (literal fields)) (S (S (length h)))),
   World (h ++ [literal fields; working (literal fields);
                final_payload (working (literal fields))]) c lg).
Proof.
  intros Hd Ho Hc Hcd He. unfold wrap_literal.
  erewrite bind_run; [|reflexivity]. cbn [heap clock log].
  rewrite (wrap_direct n _ (literal fields));
    [|by apply heap_old|apply heap_last| |].
  2:{ apply defined_passes; [done|]. by rewrite He. }
  2:{ apply guess_defined. by rewrite field_working, He. }
  rewrite wrapped_settled by (by rewrite ?Hc, ?He).
  rewrite field_working, Hc by done.
  cbn [status_accepted num]. replace (400 <=? cd) with true by lia.
  rewrite unexpected_nil by (by rewrite field_working, He).
  rewrite app_nil_r, length_app, <- app_assoc. cbn [length app].
  by rewrite Nat.add_1_r.
Qed.

Lemma heap_third (h : list jsobject) (a b c : jsobject) :
  (h ++ [a; b; c]) !! S (S (length h)) = Some c.
Proof.
  rewrite lookup_app_r by lia.
  by replace (S (S (length h)) - length h)%nat with 2%nat by lia.
Qed.

(** A call that calls a constructor: the response is built from the payload
    of the constructor's response.  Five objects are allocated: the working
    object (dropped), the literal, its working object, the payload of the
    inner response and the payload of the outer one. *)
Lemma wrap_constructed (n : nat) (src : loc) (o : jsobject) (h : list jsobject)
    (c : Z) (lg : list log_event) (k : (loc -> M boom) -> M boom)
    (fields : list (string * value)) (cd e : Z) :
  h !! DEFAULTS = Some DEFAULTS_object ->
  h !! src = Some o ->
  passes o ->
  guess (working o) = Some k ->
  k (wrap (S n)) (World (h ++ [working o]) c lg) =
    wrap_literal (wrap (S n)) fields (World (h ++ [working o]) c lg) ->
  ordinary (literal fields) ->
  supplied (literal fields) "code" = num cd -> 400 <= cd ->
  supplied (literal fields) "errno" = num e ->
  let inner := final_payload (working (literal fields)) in
  wrap (S (S n)) src (World h c lg) =
  (Returned (boom_of inner (length h + 4)%nat),
   World (h ++ [working o; literal fields; working (literal fields); inner;
                final_payload inner]) c lg).
Proof.
  intros Hd Hs Hp Hg Hk Ho Hc Hcd He inner.
  set (W := working (literal fields)) in *.
  assert (field W "code" = num cd) as HWc by (unfold W; by rewrite field_working).
  assert (field W "errno" = num e) as HWe by (unfold W; by rewrite field_working).
  assert (status_accepted (field W "code") = true) as HWa.
  { rewrite HWc. cbn [status_accepted num]. lia. }
  assert (all_enumerable W) as HWn by apply all_enumerable_working.
  assert (field inner "code" = num cd) as Hic.
  { unfold inner. rewrite field_final_payload; try done; [apply working_no_proto|].
    apply field_is_Some. by rewrite HWc. }
  assert (field inner "errno" = num e) as Hie.
  { unfold inner. rewrite field_final_payload; try done; [apply working_no_proto|].
    apply field_is_Some. by rewrite HWe. }
  erewrite wrap_nested; [|done|done|done|exact Hg|].
  2:{ rewrite Hk. eapply wrap_literal_run; try done. by apply heap_old. }
  cbn [response_payload boom_of].
  rewrite (conclude_run _ inner) by (apply heap_third || (unfold inner; no_proto)).
  cbv zeta. rewrite sanitize_id by (by rewrite Hic).
  rewrite finish_id by (by rewrite Hie).
  rewrite unexpected_nil by (by rewrite Hie).
  rewrite Hic. cbn [status_accepted num]. replace (400 <=? cd) with true by lia.
  rewrite heap_set_same by apply heap_third.
  rewrite app_nil_r, <- !app_assoc, !length_app. cbn [length app].
  by replace (length h + 1 + 3)%nat with (length h + 4)%nat by lia.
Qed.

(** ** What a call answers *)

Lemma indexOf_signature_family (v : value) :
  negb (Array_indexOf [num 109; num 110; num 111] v =? -1) = signature_family v.
Proof.
  destruct v as [| | |[z| | |]| |]; try done.
  unfold Array_indexOf, signature_family. cbn [indexOf_from strict_eq num number_eqb].
  rewrite (Z.eqb_sym z 109), (Z.eqb_sym z 110), (Z.eqb_sym z 111).
  destruct (109 =? z); [done|]. destruct (110 =? z); [done|].
  by destruct (111 =? z).
Qed.

Lemma field_wrapped_code (o : jsobject) :
  field (wrapped o) "code" = expected_code (supplied o "code") (supplied o "errno").
Proof.
  unfold wrapped. rewrite field_finish_ne by done.
  unfold sanitize, expected_code.
  rewrite !field_working, indexOf_signature_family by done.
  destruct (is_undefined (supplied o "code")).
  - destruct (signature_family _); by rewrite field_set_field_eq.
  - destruct (is_number (supplied o "code")); simpl.
    + by rewrite field_working.
    + by rewrite field_set_field_eq.
Qed.

Lemma field_wrapped_errno (o : jsobject) :
  field (wrapped o) "errno" =
  if is_undefined (supplied o "errno") then num 999 else supplied o "errno".
Proof.
  unfold wrapped, finish. rewrite field_sanitize_ne, field_working by done.
  destruct (is_undefined (supplied o "errno")).
  - by rewrite field_set_field_eq.
  - by rewrite field_sanitize_ne, field_working.
Qed.

Lemma field_wrapped_message (o : jsobject) :
  field (wrapped o) "message" = message_of o.
Proof.
  unfold wrapped.
  by rewrite field_finish_ne, field_sanitize_ne, field_working_message.
Qed.

Lemma field_wrapped_other (o : jsobject) (k : string) :
  k <> "message" -> k <> "info" -> k <> "code" -> k <> "errno" ->
  field (wrapped o) k = supplied o k.
Proof.
  intros. unfold wrapped.
  by rewrite field_finish_ne, field_sanitize_ne, field_working.
Qed.

Lemma all_enumerable_wrapped (o : jsobject) : all_enumerable (wrapped o).
Proof.
  unfold wrapped, finish, sanitize.
  repeat case_match; repeat apply all_enumerable_set_field;
    apply all_enumerable_working.
Qed.

Lemma is_Some_wrapped (o : jsobject) (k : string) :
  is_Some (working o !! k) -> is_Some (wrapped o !! k).
Proof.
  intros H. unfold wrapped, finish, sanitize.
  repeat case_match; repeat (apply is_Some_set_field; left); done.
Qed.

Lemma expected_code_defined (code errno : value) :
  expected_code code errno <> VUndef.
Proof.
  unfold expected_code. destruct code; simpl; try done.
  by destruct (signature_family errno).
Qed.

Lemma status_ok_expected (code errno : value) :
  status_accepted (expected_code code errno) = status_ok code.
Proof.
  unfold expected_code, status_ok.
  destruct code as [| | |[z| | |]| |]; simpl; try done.
  by destruct (signature_family errno).
Qed.

(** The three fields every answer has are those of the working object. *)
Lemma wrapped_has (o : jsobject) (k : string) :
  k = "code" \/ k = "errno" \/ k = "message" -> is_Some (wrapped o !! k).
Proof.
  intros [->|[->| ->]].
  - apply field_is_Some. rewrite field_wrapped_code. apply expected_code_defined.
  - apply field_is_Some. rewrite field_wrapped_errno.
    destruct (supplied o "errno"); done.
  - apply is_Some_wrapped, working_has_message.
Qed.

Lemma heap_second (h : list jsobject) (a b : jsobject) :
  (h ++ [a; b]) !! S (length h) = Some b.
Proof.
  rewrite lookup_app_r by lia.
  by replace (S (length h) - length h)%nat with 1%nat by lia.
Qed.

Lemma heap_first (h : list jsobject) (a : jsobject) (rest : list jsobject) :
  (h ++ a :: rest) !! length h = Some a.
Proof. by apply list_lookup_middle. Qed.

Lemma guess_None (o : jsobject) :
  classifiable o = false -> guess (working o) = None.
Proof.
  unfold classifiable, guess.
  rewrite !field_working, field_working_message by done.
  destruct (is_undefined _); [|done].
  destruct (strict_eq (supplied o "code") (num 401)); [done|].
  destruct (strict_eq (supplied o "code") (num 400)); [|done].
  by destruct (matches _ _).
Qed.

Lemma guess_Some (o : jsobject) :
  classifiable o = true -> exists k, guess (working o) = Some k.
Proof.
  unfold classifiable, guess.
  rewrite !field_working, field_working_message by done.
  destruct (is_undefined _); [|done].
  destruct (strict_eq (supplied o "code") (num 401)).
  { intros _. repeat (case_match; [eauto|]). eauto. }
  destruct (strict_eq (supplied o "code") (num 400)); [|done].
  destruct (matches _ _); [eauto|done].
Qed.

(** What a call that calls no constructor leaves behind. *)
Lemma answer_direct (n : nat) (src : loc) (o : jsobject) (w : world) :
  module_loaded w ->
  heap w !! src = Some o ->
  passes o ->
  classifiable o = false ->
  let r := wrap (S n) src w in
  (if status_ok (supplied o "code") then
     exists p, response r = Some p
       /\ forall k, is_Some (wrapped o !! k) -> field p k = field (wrapped o) k
   else r.1 = Threw rejected)
  /\ log r.2 = log w ++ unexpected (length (heap w)) (working o)
  /\ heap r.2 !! length (heap w) = Some (wrapped o)
  /\ exists fresh, heap r.2 = heap w ++ fresh.
Proof.
  destruct w as [h c lg]. unfold module_loaded. cbn [heap clock log].
  intros Hd Hs Hp Hg%guess_None.
  rewrite (wrap_direct n src o) by done.
  rewrite field_wrapped_code, status_ok_expected.
  destruct (status_ok (supplied o "code")) eqn:Hok; cbn [fst snd heap log response].
  - repeat split; [|apply heap_first|eauto].
    exists (final_payload (wrapped o)). split.
    + cbn [boom_of response_payload]. apply heap_second.
    + intros k Hk.
      apply field_final_payload; [apply wrapped_no_proto|apply all_enumerable_wrapped| |done].
      by rewrite field_wrapped_code, status_ok_expected.
  - repeat split; [apply heap_last|eauto].
Qed.

(** What a call that calls a constructor leaves behind: the answer carries
    the fields of the constructor's literal, nothing is logged. *)
Lemma answer_constructed (n : nat) (src : loc) (o : jsobject) (w : world)
    (k : (loc -> M boom) -> M boom) (fields : list (string * value)) (cd e : Z) :
  module_loaded w ->
  heap w !! src = Some o ->
  passes o ->
  guess (working o) = Some k ->
  (forall w', clock w' = clock w ->
     k (wrap (S n)) w' = wrap_literal (wrap (S n)) fields w') ->
  ordinary (literal fields) ->
  supplied (literal fields) "code" = num cd -> 400 <= cd ->
  supplied (literal fields) "errno" = num e ->
  let r := wrap (S (S n)) src w in
  (exists p, response r = Some p
     /\ field p "code" = num cd
     /\ field p "errno" = num e
     /\ field p "message" = message_of (literal fields)
     /\ forall k', k' <> "message" -> k' <> "info" ->
          supplied (literal fields) k' <> VUndef ->
          field p k' = supplied (literal fields) k')
  /\ log r.2 = log w
  /\ exists fresh, heap r.2 = heap w ++ fresh.
Proof.
  destruct w as [h c lg]. unfold module_loaded. cbn [heap clock log].
  intros Hd Hs Hp Hg Hk Ho Hc Hcd He.
  rewrite (wrap_constructed n src o h c lg k fields cd e) by (try done; by apply Hk).
  cbn [fst snd heap log response boom_of response_payload].
  set (W := working (literal fields)).
  assert (status_accepted (field W "code") = true) as HWa.
  { unfold W. rewrite field_working, Hc by done. cbn [status_accepted num]. lia. }
  assert (all_enumerable W) as HWn by apply all_enumerable_working.
  assert (forall k', is_Some (W !! k') ->
            field (final_payload (final_payload W)) k' = field W k') as Hf.
  assert (W !! "__proto__" = None) as HWp by apply working_no_proto.
  { intros k' Hk'. rewrite field_final_payload.
    - by apply field_final_payload.
    - by apply final_payload_no_proto.
    - apply all_enumerable_final_payload.
    - rewrite field_final_payload; try done. apply field_is_Some.
      unfold W. rewrite field_working, Hc by done. done.
    - by apply is_Some_final_payload. }
  repeat split; [|eauto].
  exists (final_payload (final_payload W)). split.
  { rewrite lookup_app_r by lia.
    by replace (length h + 4 - length h)%nat with 4%nat by lia. }
  repeat split.
  - rewrite Hf; unfold W; [by rewrite field_working|].
    apply field_is_Some. by rewrite field_working, Hc.
  - rewrite Hf; unfold W; [by rewrite field_working|].
    apply field_is_Some. by rewrite field_working, He.
  - rewrite Hf; unfold W; [apply field_working_message|apply working_has_message].
  - intros k' H1 H2 H3. rewrite Hf; unfold W; [by rewrite field_working|].
    apply field_is_Some. by rewrite field_working.
Qed.

(** The literal each of the five constructors of [guess] wraps. *)
Lemma guess_literal (obj : jsobject) (k : (loc -> M boom) -> M boom) (c : Z) :
  guess obj = Some k ->
  exists (fields : list (string * value)) (cd e : Z),
    (forall errors_wrap w', clock w' = c ->
       k errors_wrap w' = wrap_literal errors_wrap fields w')
    /\ ordinary (literal fields)
    /\ supplied (literal fields) "code" = num cd /\ 400 <= cd
    /\ supplied (literal fields) "errno" = num e
    /\ (string_ne (field obj "message") = true ->
        string_ne (message_of (literal fields)) = true).
Proof.
  unfold guess. intros H.
  repeat case_match; try done; injection H as <-.
  1-2,4: eexists _, _, _; split; [intros ? ? _; reflexivity|];
         repeat split; try reflexivity; done.
  - exists [("code", num 401); ("errno", num 111);
            ("message", VStr "Invalid timestamp in request signature");
            ("serverTime", num (c / 1000))], 401, 111.
    split; [by intros ? [] <-|]. repeat split; done.
  - eexists _, _, _; split; [intros ? ? _; reflexivity|].
    repeat split; try reflexivity; try done.
    intros Hm. unfold js_or.
    destruct (field obj "message"); try done. simpl in Hm |- *. by rewrite Hm.
  - eexists _, _, _; split; [intros ? ? _; reflexivity|];
      repeat split; try reflexivity; done.
Qed.

(** Two levels of calls are all [wrap] ever takes: more fuel changes
    nothing. *)
Lemma wrap_fuel (n : nat) (src : loc) (o : jsobject) (w : world) :
  module_loaded w ->
  heap w !! src = Some o ->
  wrap (S (S n)) src w = wrap 2 src w.
Proof.
  destruct w as [h c lg]. unfold module_loaded. cbn [heap].
  intros Hd Hs.
  pose proof (wrap_stopped (S n) src o h c lg Hd Hs) as H1.
  pose proof (wrap_stopped 1 src o h c lg Hd Hs) as H2.
  destruct (Hoek.reaches_prototype false o) eqn:Hr; [congruence|].
  destruct (o !! "hasOwnProperty") eqn:Hh; [congruence|].
  destruct (unreadable (working o)) eqn:Hu; [by rewrite H1, H2|].
  assert (passes o) as Hp by (by apply readable_passes).
  destruct (guess (working o)) as [k|] eqn:Hg.
  - destruct (guess_literal _ _ c Hg)
      as (fields & cd & e & Hrun & Ho & Hc & Hcd & He & _).
    rewrite (wrap_constructed n src o h c lg k fields cd e) by (try done; by apply Hrun).
    by rewrite (wrap_constructed 0 src o h c lg k fields cd e)
      by (try done; by apply Hrun).
  - by rewrite (wrap_direct (S n) src o), (wrap_direct 1 src o).
Qed.



Lemma unexpected_working (l : loc) (o : jsobject) :
  unexpected l (working o) =
  if is_undefined (supplied o "errno")
  then [LogEvent error "error.wrap" "unexpected error" l] else [].
Proof. unfold unexpected. by rewrite field_working. Qed.


(** ** Plain inputs *)

Lemma primitive_readable (v : value) : primitive v = true -> is_Some (ToString v).
Proof. destruct v as [| |[]| | |]; simpl; eauto. done. Qed.

Lemma ordinary_passes (o : jsobject) :
  ordinary o ->
  (tested o = true -> is_Some (ToString (message_of o))) ->
  passes o.
Proof.
  intros [Hh Hp] Ht. split; [done|]. split; [by apply reaches_prototype_None|done].
Qed.

Lemma plain_ordinary (o : jsobject) :
  plain o = true -> ordinary o /\ primitive (message_of o) = true.
Proof.
  unfold plain. intros H.
  apply andb_prop in H as [H _]. apply andb_prop in H as [H Hm].
  apply andb_prop in H as [Hh Hp].
  apply bool_decide_eq_true_1 in Hh, Hp. done.
Qed.

Lemma plain_passes (o : jsobject) : plain o = true -> passes o.
Proof.
  intros [Ho Hm]%plain_ordinary. apply ordinary_passes; [done|].
  intros _. by apply primitive_readable.
Qed.

(** A status of 401 is not tried against the pattern. *)
Lemma tested_401 (o : jsobject) : supplied o "code" = num 401 -> tested o = false.
Proof. intros H. unfold tested. rewrite H. apply andb_false_r. Qed.

Lemma answer_classified (n : nat) (src : loc) (o : jsobject) (w : world) :
  module_loaded w ->
  heap w !! src = Some o ->
  passes o ->
  classifiable o = true ->
  let r := wrap (S (S n)) src w in
  exists (fields : list (string * value)) (cd e : Z),
    400 <= cd
    /\ (string_ne (message_of o) = true ->
        string_ne (message_of (literal fields)) = true)
    /\ (exists p, response r = Some p
          /\ field p "code" = num cd
          /\ field p "errno" = num e
          /\ field p "message" = message_of (literal fields))
    /\ log r.2 = log w
    /\ exists fresh, heap r.2 = heap w ++ fresh.
Proof.
  intros Hd Hs Hpass [k Hk]%guess_Some r.
  destruct (guess_literal _ _ (clock w) Hk)
    as (fields & cd & e & Hrun & Ho & Hc & Hcd & He & Hm).
  exists fields, cd, e. split; [done|]. split.
  { by rewrite <- field_working_message. }
  destruct (answer_constructed n src o w k fields cd e) as ((p & Hp & ? & ? & ? & _) & ? & ?);
    try done.
  { intros w' Hw'. by apply Hrun. }
  split; [|done]. by exists p.
Qed.

(** * The claims *)

Section Claims.

Variables (n : nat) (src : loc) (o : jsobject) (w : world).

(** The module is loaded and [src] refers to the input object [o]. *)
Hypothesis loaded : module_loaded w.
Hypothesis input : heap w !! src = Some o.

(** C1, as the code has it.  A plain input whose status is absent, not a
    number, or a finite number from 400 up is answered, never thrown at:
    the answer has a status that is a number from 400 up, and an [errno]
    that is the input's own when it has one and an integer otherwise.  With
    no [errno] and nothing for the classifier to go by, the [errno] is 999;
    the [code] is then 400 when the input has none, 500 when it is defined
    and not a number, and the input's own otherwise. *)
Theorem wrap_answers :
  plain o = true ->
  status_ok (supplied o "code") = true ->
  exists p, response (wrap (S (S n)) src w) = Some p
    /\ status_accepted (field p "code") = true
    /\ (if is_undefined (supplied o "errno")
        then exists e, field p "errno" = num e
        else field p "errno" = supplied o "errno")
    /\ (is_undefined (supplied o "errno") = true -> classifiable o = false ->
        field p "errno" = num 999
        /\ field p "code" = expected_code (supplied o "code") VUndef).
Proof.
  intros Hpl%plain_passes Hok. destruct (classifiable o) eqn:Hcl.
  - destruct (answer_classified n src o w loaded input Hpl Hcl)
      as (fields & cd & e & Hcd & _ & (p & Hp & Hc & He & _) & _).
    exists p. split; [done|]. split.
    { rewrite Hc. cbn [status_accepted num]. lia. }
    split; [|done].
    unfold classifiable in Hcl. destruct (is_undefined (supplied o "errno")); [eauto|done].
  - destruct (answer_direct (S n) src o w loaded input Hpl Hcl) as (Hr & _).
    rewrite Hok in Hr. destruct Hr as (p & Hp & Hf).
    exists p. split; [done|].
    assert (field p "code" = expected_code (supplied o "code") (supplied o "errno")) as Hc.
    { rewrite Hf by (apply wrapped_has; auto). apply field_wrapped_code. }
    assert (field p "errno" =
            if is_undefined (supplied o "errno") then num 999 else supplied o "errno") as He.
    { rewrite Hf by (apply wrapped_has; auto). apply field_wrapped_errno. }
    split.
    { by rewrite Hc, status_ok_expected. }
    split.
    { rewrite He. destruct (is_undefined (supplied o "errno")); eauto. }
    intros Hu _. rewrite He, Hc, Hu. split; [done|].
    by destruct (supplied o "errno").
Qed.




(** C5, as the code has it.  The answer's message is "Unspecified error"
    when the input has no message of its own, and a non-empty string
    whenever the input's own message is one.  (The input being plain, and
    its status one [wrap] answers to.) *)
Theorem message_kept :
  plain o = true ->
  status_ok (supplied o "code") = true ->
  exists p, response (wrap (S (S n)) src w) = Some p
    /\ (o !! "message" = None -> field p "message" = VStr "Unspecified error")
    /\ (string_ne (message_of o) = true -> string_ne (field p "message") = true).
Proof.
  intros Hpl%plain_passes Hok. destruct (classifiable o) eqn:Hcl.
  - assert (o !! "message" = None ->
            exists k, guess (working o) = Some k
              /\ forall w', k (wrap (S n)) w' =
                   wrap_literal (wrap (S n))
                     [("code", num 401); ("errno", num 109);
                      ("message", VStr "Unspecified error")] w') as Hnone.
    { intros Hm. unfold classifiable in Hcl. unfold guess.
      rewrite !field_working, field_working_message by done.
      unfold message_of in Hcl |- *. rewrite Hm in Hcl |- *.
      destruct (is_undefined (supplied o "errno")); [|done].
      destruct (strict_eq (supplied o "code") (num 401)).
      - eexists. split; [reflexivity|done].
      - rewrite andb_false_r in Hcl. done. }
    destruct (o !! "message") as [m|] eqn:Hm.
    + destruct (answer_classified n src o w loaded input Hpl Hcl)
        as (fields & cd & e & _ & Hne & (p & Hp & _ & _ & Hpm) & _).
      exists p. split; [done|]. split; [done|]. rewrite Hpm. done.
    + destruct (Hnone eq_refl) as (k & Hg & Hk).
      destruct (answer_constructed n src o w k _ 401 109 loaded input Hpl Hg
                  (fun w' _ => Hk w'))
        as ((p & Hp & _ & _ & Hpm & _) & _); try done.
      exists p. split; [done|]. rewrite Hpm. done.
  - destruct (answer_direct (S n) src o w loaded input Hpl Hcl) as (Hr & _).
    rewrite Hok in Hr. destruct Hr as (p & Hp & Hf).
    exists p. split; [done|].
    rewrite Hf by (apply wrapped_has; auto). rewrite field_wrapped_message.
    split; [|done]. unfold message_of. by intros ->.
Qed.

(** C6, as the code has it.  A plain input with an [errno] of its own,
    enumerable and neither [null] nor [undefined], is not classified:
    whatever the constructors would do, the step that guesses an [errno]
    calls none and leaves the working object as it is, and the call goes on
    with the object it started from.  Every answer carries the input's
    [errno]; and there is an answer whenever the input's status is one the
    Boom constructor takes (none, not a number, or a finite number from 400
    up). *)
Theorem errno_kept :
  plain o = true ->
  is_undefined (supplied o "errno") = false ->
  (exists l wm, merge_with_defaults src w = (Returned l, wm)
     /\ (forall errors_wrap, intuit_errno errors_wrap l wm = (Returned l, wm))
     /\ wrap (S (S n)) src w = conclude l wm)
  /\ (forall p, response (wrap (S (S n)) src w) = Some p ->
        field p "errno" = supplied o "errno")
  /\ (status_ok (supplied o "code") = true ->
      exists p, response (wrap (S (S n)) src w) = Some p).
Proof.
  intros Hpl%plain_passes Hd.
  assert (classifiable o = false) as Hcl by (unfold classifiable; by rewrite Hd).
  split.
  { destruct w as [h c lg]. exists (length h), (World (h ++ [working o]) c lg).
    split; [by apply passes_run|].
    assert (forall ew, intuit_errno ew (length h) (World (h ++ [working o]) c lg)
                       = (Returned (length h), World (h ++ [working o]) c lg)) as Hi.
    { intros ew. rewrite (intuit_errno_run _ _ (working o)) by apply heap_last.
      rewrite passes_readable by done.
      rewrite guess_defined; [done|]. by rewrite field_working. }
    split; [done|]. rewrite wrap_unfold.
    erewrite bind_run; [|by apply passes_run].
    by erewrite bind_run. }
  destruct (answer_direct (S n) src o w loaded input Hpl Hcl) as (Hr & _).
  destruct (status_ok (supplied o "code")).
  - destruct Hr as (p & Hp & Hf). split; [|eauto].
    intros p'. rewrite Hp. intros [= <-].
    rewrite Hf by (apply wrapped_has; auto).
    by rewrite field_wrapped_errno, Hd.
  - split; [|done]. intros p.
    destruct (wrap (S (S n)) src w) as [[] ?]; simpl in Hr |- *; done.
Qed.

(** C7.  A 401 with the message "Stale timestamp" and no [errno] is
    answered with [errno] 111, status 401, and a [serverTime] that is the
    clock reading of the call in whole seconds.  (The input has the fields
    of the claim's literal, and none that hides [hasOwnProperty] or reaches
    the prototype.) *)
Theorem stale_timestamp :
  ordinary o ->
  is_undefined (supplied o "errno") = true ->
  supplied o "code" = num 401 ->
  message_of o = VStr "Stale timestamp" ->
  exists p, response (wrap (S (S n)) src w) = Some p
    /\ field p "errno" = num 111
    /\ field p "code" = num 401
    /\ exists t, field p "serverTime" = num t
         /\ 1000 * t <= clock w < 1000 * t + 1000.
Proof.
  intros Ho Hu Hc Hm.
  assert (passes o) as Hpl.
  { apply ordinary_passes; [done|]. by rewrite tested_401. }
  assert (guess (working o) = Some invalidTimestamp) as Hg.
  { unfold guess. by rewrite !field_working, field_working_message, Hu, Hc, Hm by done. }
  destruct (answer_constructed n src o w invalidTimestamp
              [("code", num 401); ("errno", num 111);
               ("message", VStr "Invalid timestamp in request signature");
               ("serverTime", num (clock w / 1000))] 401 111)
    as ((p & Hp & Hpc & Hpe & _ & Hother) & _); try done.
  { by intros [] <-. }
  exists p. repeat split; try done.
  exists (clock w / 1000). split.
  - by rewrite Hother.
  - pose proof (Z.mul_div_le (clock w) 1000).
    pose proof (Z.mul_succ_div_gt (clock w) 1000). lia.
Qed.


(** C9, as the code has it.  A status of a plain input that is there for
    the merge with the defaults (own, enumerable, neither [null] nor
    [undefined]) and is not a number is replaced by 500. *)
Theorem garbage_status :
  plain o = true ->
  is_undefined (supplied o "code") = false ->
  is_number (supplied o "code") = false ->
  exists p, response (wrap (S (S n)) src w) = Some p
    /\ field p "code" = num 500.
Proof.
  intros Hpl%plain_passes Hd Hn.
  assert (classifiable o = false) as Hcl.
  { unfold classifiable. destruct (supplied o "code") as [| | |[]| |]; try done;
      simpl; by rewrite ?andb_false_r. }
  destruct (answer_direct (S n) src o w loaded input Hpl Hcl) as (Hr & _).
  unfold status_ok in Hr. rewrite Hd, Hn in Hr. destruct Hr as (p & Hp & Hf).
  exists p. split; [done|].
  rewrite Hf by (apply wrapped_has; auto).
  rewrite field_wrapped_code. unfold expected_code. by rewrite Hd, Hn.
Qed.


End Claims.

(** * More of [error.js]

    The constructors, and what else [wrap] does with its input. *)

(** ** Fields an answer does not take from the working object *)

Lemma lookup_overlay_None (o : jsobject) (k : string) :
  k <> "message" -> k <> "info" -> supplied o k = VUndef -> overlay o !! k = None.
Proof.
  intros H1 H2. unfold overlay, supplied. rewrite clone_DEFAULTS.
  case_decide as Hk.
  { subst k. by rewrite lookup_merge_object_proto. }
  rewrite lookup_merge_object, DEFAULTS_lookup_other by done.
  unfold Hoek.merge_property.
  destruct (o !! k) as [[[] v]|]; simpl; try done.
  destruct v; simpl; done.
Qed.

Lemma lookup_working_None (o : jsobject) (k : string) :
  k <> "message" -> k <> "info" -> supplied o k = VUndef -> working o !! k = None.
Proof.
  intros H1 H2 H3. unfold working. case_bool_decide.
  - unfold set_field. rewrite lookup_insert_ne by done. by apply lookup_overlay_None.
  - by apply lookup_overlay_None.
Qed.

Lemma lookup_wrapped_other (o : jsobject) (k : string) :
  k <> "code" -> k <> "errno" -> wrapped o !! k = working o !! k.
Proof.
  intros H1 H2. unfold wrapped, finish, sanitize, set_field.
  repeat case_match; rewrite ?lookup_insert_ne by done; done.
Qed.

Lemma field_final_payload_absent (obj : jsobject) (k : string) :
  obj !! k = None ->
  field (final_payload obj) k
  = field (boom_payload (field obj "code") (field obj "message")) k.
Proof.
  intros Hk. unfold field at 1 3, final_payload.
  destruct (decide (k = "__proto__")) as [->|Hne].
  - by rewrite lookup_merge_object_proto.
  - by rewrite lookup_merge_object, Hk.
Qed.

Lemma field_boom_payload_other (code message : value) (k : string) :
  k <> "code" -> k <> "error" -> k <> "message" ->
  field (boom_payload code message) k = VUndef.
Proof.
  intros H1 H2 H3. unfold field, boom_payload, literal.
  destruct (truthy message); simpl;
    rewrite !lookup_insert_ne by done; by rewrite lookup_empty.
Qed.

Lemma field_boom_payload_error (code message : value) :
  field (boom_payload code message) "error" = status_text code.
Proof. unfold field, boom_payload, literal. by destruct (truthy message). Qed.

(** The documentation reference of the defaults. *)
Lemma field_overlay_info (o : jsobject) :
  field (overlay o) "info" =
  if is_undefined (supplied o "info") then field DEFAULTS_object "info"
  else supplied o "info".
Proof.
  unfold field at 1, overlay, supplied.
  rewrite lookup_merge_object, clone_DEFAULTS by done.
  case_decide; [done|].
  unfold Hoek.merge_property.
  destruct (o !! "info") as [[[] v]|]; simpl; try done.
  destruct v; simpl; done.
Qed.

Lemma field_working_info (o : jsobject) :
  field (working o) "info" =
  if is_undefined (supplied o "info") then field DEFAULTS_object "info"
  else supplied o "info".
Proof.
  unfold working. case_bool_decide.
  - rewrite field_set_field_ne by done. apply field_overlay_info.
  - apply field_overlay_info.
Qed.

Lemma working_has_info (o : jsobject) : is_Some (working o !! "info").
Proof.
  apply field_is_Some. rewrite field_working_info.
  destruct (supplied o "info"); done.
Qed.

(** An answer, field by field, when no constructor is called: what the
    working object holds, and the status text where it holds no [error]. *)
Lemma field_answer_other (o : jsobject) (k : string) :
  status_ok (supplied o "code") = true ->
  k <> "message" -> k <> "info" -> k <> "code" -> k <> "errno" -> k <> "error" ->
  field (final_payload (wrapped o)) k = supplied o k.
Proof.
  intros Hok H1 H2 H3 H4 H5.
  assert (status_accepted (field (wrapped o) "code") = true) as Ha
    by (by rewrite field_wrapped_code, status_ok_expected).
  destruct (working o !! k) as [q|] eqn:Hq.
  - rewrite field_final_payload;
      [by apply field_wrapped_other|apply wrapped_no_proto|apply all_enumerable_wrapped|done|].
    rewrite lookup_wrapped_other by done. by rewrite Hq.
  - rewrite field_final_payload_absent by (by rewrite lookup_wrapped_other).
    rewrite field_boom_payload_other by done.
    rewrite <- (field_working o k) by done. unfold field. by rewrite Hq.
Qed.

Lemma field_answer_error (o : jsobject) :
  status_ok (supplied o "code") = true ->
  field (final_payload (wrapped o)) "error" =
  if is_undefined (supplied o "error")
  then status_text (expected_code (supplied o "code") (supplied o "errno"))
  else supplied o "error".
Proof.
  intros Hok.
  assert (status_accepted (field (wrapped o) "code") = true) as Ha
    by (by rewrite field_wrapped_code, status_ok_expected).
  destruct (is_undefined (supplied o "error")) eqn:Hu.
  - rewrite field_final_payload_absent, field_boom_payload_error, field_wrapped_code; [done|].
    rewrite lookup_wrapped_other by done. apply lookup_working_None; try done.
    by destruct (supplied o "error").
  - rewrite field_final_payload;
      [by apply field_wrapped_other|apply wrapped_no_proto|apply all_enumerable_wrapped|done|].
    apply field_is_Some. rewrite field_wrapped_other by done.
    by destruct (supplied o "error").
Qed.

Lemma field_answer_info (o : jsobject) :
  status_ok (supplied o "code") = true ->
  field (final_payload (wrapped o)) "info" =
  if is_undefined (supplied o "info") then field DEFAULTS_object "info"
  else supplied o "info".
Proof.
  intros Hok.
  assert (status_accepted (field (wrapped o) "code") = true) as Ha
    by (by rewrite field_wrapped_code, status_ok_expected).
  rewrite field_final_payload; [|apply wrapped_no_proto|apply all_enumerable_wrapped|done|].
  - unfold wrapped. by rewrite field_finish_ne, field_sanitize_ne, field_working_info.
  - apply is_Some_wrapped, working_has_info.
Qed.

(** ** Objects ready for the Boom constructor *)

Lemma overlay_not_nullish (o : jsobject) (k : string) (q : property) :
  overlay o !! k = Some q -> nullish (pvalue q) = false.
Proof.
  destruct (decide (k = "__proto__")) as [->|Hk].
  { destruct (lookup_overlay_names o) as [-> _]. done. }
  unfold overlay. rewrite lookup_merge_object, clone_DEFAULTS by done.
  unfold Hoek.merge_property.
  assert (forall d, DEFAULTS_object !! k = Some d -> nullish (pvalue d) = false) as Hd.
  { intros d. unfold DEFAULTS_object, literal. simpl.
    rewrite lookup_insert. case_decide; [by intros [= <-]|].
    rewrite lookup_insert. case_decide; [by intros [= <-]|].
    by rewrite lookup_empty. }
  destruct (o !! k) as [[[] v]|]; simpl; [|apply Hd..].
  destruct (Hoek.merge_value false _ v) as [v'|] eqn:Hv; [|apply Hd].
  intros [= <-].
  assert (nullish v' = false) as Hn.
  { destruct v; simpl in Hv; try discriminate; try (by injection Hv as <-).
    destruct (from_option pvalue VUndef (DEFAULTS_object !! k)); by injection Hv as <-. }
  by destruct (DEFAULTS_object !! k).
Qed.

Lemma ordinary_wrapped (o : jsobject) :
  o !! "hasOwnProperty" = None -> ordinary (wrapped o).
Proof.
  intros [Hh Hp]%ordinary_working. unfold wrapped. split.
  - by apply lookup_finish_None, lookup_sanitize_None.
  - by apply lookup_finish_None, lookup_sanitize_None.
Qed.

Lemma settled_wrapped (o : jsobject) :
  o !! "hasOwnProperty" = None ->
  status_ok (supplied o "code") = true -> settled (wrapped o).
Proof.
  intros Hh Hok. split; [by apply ordinary_wrapped|].
  split; [apply all_enumerable_wrapped|].
  split; [by rewrite field_wrapped_code, status_ok_expected|].
  split.
  { rewrite field_wrapped_errno. unfold supplied. case_decide; [done|].
    destruct (o !! "errno") as [[[] v]|]; simpl; try done. by destruct v. }
  split; [apply is_Some_wrapped, working_has_message|].
  split; [apply is_Some_wrapped, working_has_info|].
  intros k q Hq Hk.
  destruct (decide (k = "code")) as [->|Hc].
  { assert (pvalue q = field (wrapped o) "code") as -> by (unfold field; by rewrite Hq).
    rewrite field_wrapped_code.
    unfold expected_code. destruct (supplied o "code") as [| | |[]| |]; simpl; try done;
      by destruct (signature_family _). }
  destruct (decide (k = "errno")) as [->|He].
  { assert (pvalue q = field (wrapped o) "errno") as -> by (unfold field; by rewrite Hq).
    rewrite field_wrapped_errno. unfold supplied. case_decide; [done|].
    destruct (o !! "errno") as [[[] v]|]; simpl; try done. by destruct v. }
  rewrite lookup_wrapped_other in Hq by done.
  unfold working in Hq. case_bool_decide.
  - unfold set_field in Hq. rewrite lookup_insert_ne in Hq by done.
    by eapply overlay_not_nullish.
  - by eapply overlay_not_nullish.
Qed.

Lemma lookup_final_payload_cases (obj : jsobject) (k : string) (q : property) :
  obj !! "__proto__" = None ->
  all_enumerable obj ->
  status_accepted (field obj "code") = true ->
  final_payload obj !! k = Some q ->
  (exists p, obj !! k = Some p /\ pvalue q = pvalue p)
  \/ (obj !! k = None
      /\ boom_payload (field obj "code") (field obj "message") !! k = Some q).
Proof.
  intros Hn Ho Hc Hq. destruct (obj !! k) as [p|] eqn:Hp.
  - left. exists p. split; [done|].
    destruct (lookup_final_payload obj k p Hn Hc Hp (Ho _ _ Hp)) as (q' & Hq' & Hv & _).
    congruence.
  - right. split; [done|].
    unfold final_payload in Hq.
    destruct (decide (k = "__proto__")) as [->|Hne].
    + by rewrite lookup_merge_object_proto in Hq.
    + by rewrite lookup_merge_object, Hp in Hq.
Qed.

Lemma boom_payload_not_nullish (code message : value) (k : string) (q : property) :
  status_accepted code = true ->
  boom_payload code message !! k = Some q -> nullish (pvalue q) = false.
Proof.
  intros (x & ->)%status_accepted_num.
  destruct (status_text_VStr (VNum x)) as [s Hs].
  unfold boom_payload, literal. rewrite Hs.
  destruct (truthy message); simpl;
    repeat (rewrite lookup_insert; case_decide; [by intros [= <-]|]);
    by rewrite lookup_empty.
Qed.

Lemma final_payload_has_error (obj : jsobject) :
  all_enumerable obj -> status_accepted (field obj "code") = true ->
  is_Some (final_payload obj !! "error")
  /\ nullish (field (final_payload obj) "error") = false \/ 
  (exists p, obj !! "error" = Some p).
Proof.
  intros Ho Hc. destruct (obj !! "error") as [p|] eqn:Hp; [right; eauto|left].
  split.
  - unfold final_payload. rewrite lookup_merge_object, Hp by done. simpl.
    unfold boom_payload, literal. destruct (truthy _); simpl;
      rewrite lookup_insert_ne by done; rewrite lookup_insert_eq; eauto.
  - rewrite field_final_payload_absent, field_boom_payload_error by done.
    by destruct (field obj "code") as [| | |[]| |].
Qed.

(** The payload of an answer is ready for the constructor again, and it has
    an [error] label. *)
Lemma settled_final_payload (obj : jsobject) :
  settled obj ->
  settled (final_payload obj) /\ is_Some (final_payload obj !! "error").
Proof.
  intros ([Hh Hn] & Hen & Hc & He & Hm & Hi & Hnn).
  assert (forall k, is_Some (obj !! k) ->
            field (final_payload obj) k = field obj k) as Hf
    by (intros; by apply field_final_payload).
  assert (is_Some (obj !! "code")) as Hhc.
  { apply field_is_Some. by destruct (field obj "code"). }
  assert (is_Some (obj !! "errno")) as Hhe.
  { apply field_is_Some. by destruct (field obj "errno"). }
  split.
  - split; [split; apply lookup_final_payload_None; auto|].
    split; [apply all_enumerable_final_payload|].
    split; [by rewrite Hf|]. split; [by rewrite Hf|].
    split; [by apply is_Some_final_payload|].
    split; [by apply is_Some_final_payload|].
    intros k q Hq Hk.
    destruct (lookup_final_payload_cases obj k q Hn Hen Hc Hq) as [(p & Hp & ->)|[_ Hb]].
    + by eapply Hnn.
    + by eapply boom_payload_not_nullish.
  - destruct (final_payload_has_error obj Hen Hc) as [[H _]|[p Hp]]; [done|].
    apply is_Some_final_payload; eauto.
Qed.

Lemma status_not_ok (o : jsobject) :
  status_ok (supplied o "code") = false -> classifiable o = false.
Proof.
  unfold status_ok, classifiable.
  destruct (supplied o "code") as [| | |[z| | |z f]| |]; simpl; try done;
    rewrite ?andb_false_r; try done.
  intros Hz. destruct (is_undefined _); [|done]. simpl.
  destruct (z =? 401) eqn:E1; [lia|]. destruct (z =? 400) eqn:E2; [lia|done].
Qed.

Lemma supplied_settled (p : jsobject) (k : string) :
  settled p -> k <> "message" -> supplied p k = field p k.
Proof.
  intros ([_ Hn] & Hen & _ & _ & _ & _ & Hnn) Hk. unfold supplied, field.
  case_decide as Hp; [subst k; by rewrite Hn|].
  destruct (p !! k) as [q|] eqn:Hq; [|done].
  by rewrite (Hen _ _ Hq), (Hnn _ _ Hq Hk).
Qed.

Lemma settled_status_ok (p : jsobject) :
  settled p -> status_ok (supplied p "code") = true.
Proof.
  intros Hp. rewrite supplied_settled by done.
  destruct Hp as (_ & _ & Hc & _). unfold status_ok. rewrite Hc. by rewrite orb_true_r.
Qed.

Lemma settled_not_classifiable (p : jsobject) :
  settled p -> classifiable p = false.
Proof.
  intros Hp. unfold classifiable. rewrite supplied_settled by done.
  destruct Hp as (_ & _ & _ & He & _). by destruct (field p "errno").
Qed.

(** Wrapping the payload of an answer again: the same fields. *)
Lemma rewrap_fields (p : jsobject) (k : string) :
  settled p -> is_Some (p !! "error") ->
  field (final_payload (wrapped p)) k = field p k.
Proof.
  intros Hp Herr.
  pose proof (settled_status_ok p Hp) as Hok.
  assert (p !! "hasOwnProperty" = None) as Hh by (by destruct Hp as ([? _] & _)).
  pose proof (settled_wrapped p Hh Hok) as ([_ Hwn] & Hen & Ha & _).
  destruct Hp as (Hpo & Hpen & Hpc & Hpe & Hpm & Hpi & Hpn).
  assert (settled p) as Hp by done.
  destruct (decide (k = "message")) as [->|Hm].
  { rewrite field_final_payload by (try done; apply wrapped_has; auto).
    rewrite field_wrapped_message. unfold message_of, field.
    by destruct Hpm as [q ->]. }
  destruct (decide (k = "code")) as [->|Hc].
  { rewrite field_final_payload by (try done; apply wrapped_has; auto).
    rewrite field_wrapped_code, supplied_settled by done.
    unfold expected_code. by destruct (field p "code") as [| | |[]| |]. }
  destruct (decide (k = "errno")) as [->|He].
  { rewrite field_final_payload by (try done; apply wrapped_has; auto).
    rewrite field_wrapped_errno, supplied_settled by done.
    by destruct (field p "errno"). }
  destruct (decide (k = "info")) as [->|Hi].
  { rewrite field_answer_info, supplied_settled by done.
    destruct Hpi as [q Hq]. assert (nullish (pvalue q) = false) as Hn by (by eapply Hpn).
    unfold field. rewrite Hq. by destruct (pvalue q). }
  destruct (decide (k = "error")) as [->|Hr].
  { rewrite field_answer_error, supplied_settled by done.
    destruct Herr as [q Hq]. assert (nullish (pvalue q) = false) as Hn by (by eapply Hpn).
    unfold field. rewrite Hq. by destruct (pvalue q). }
  rewrite field_answer_other by done. by apply supplied_settled.
Qed.

(** Every call that is answered ends the same way: a settled object [X],
    among the objects the call allocated, is handed to the constructor, and
    the payload of the response is the last object allocated. *)
Lemma wrap_shape (n : nat) (src : loc) (o : jsobject) (h : list jsobject)
    (c : Z) (lg : list log_event) :
  h !! DEFAULTS = Some DEFAULTS_object ->
  h !! src = Some o ->
  passes o ->
  status_ok (supplied o "code") = true ->
  exists X fresh lg',
    settled X
    /\ wrap (S (S n)) src (World h c lg)
       = (Returned (boom_of X (length (h ++ fresh))),
          World ((h ++ fresh) ++ [final_payload X]) c lg').
Proof.
  intros Hd Hs Hpass Hok. destruct (guess (working o)) as [k|] eqn:Hg.
  - destruct (guess_literal _ _ c Hg)
      as (fields & cd & e & Hrun & [Hlh Hlp] & Hc & Hcd & He & _).
    exists (final_payload (working (literal fields))),
      [working o; literal fields; working (literal fields);
       final_payload (working (literal fields))], lg.
    assert (status_ok (supplied (literal fields) "code") = true) as Hlok.
    { rewrite Hc. unfold status_ok. cbn [status_accepted num]. 
      replace (400 <=? cd) with true by lia. by rewrite orb_true_r. }
    split.
    { apply settled_final_payload.
      rewrite <- (wrapped_settled (literal fields)) by (by rewrite ?Hc, ?He).
      by apply settled_wrapped. }
    rewrite (wrap_constructed n src o h c lg k fields cd e) by (try done; by apply Hrun).
    cbv zeta. rewrite length_app, <- app_assoc. reflexivity.
  - exists (wrapped o), [wrapped o], (lg ++ unexpected (length h) (working o)).
    split; [apply settled_wrapped; [by destruct Hpass|done]|].
    rewrite (wrap_direct (S n) src o) by done.
    rewrite field_wrapped_code, status_ok_expected, Hok.
    rewrite length_app, <- app_assoc. cbn [length app]. by rewrite Nat.add_1_r.
Qed.

Lemma field_final_payload_settled (obj : jsobject) (k : string) :
  settled obj -> k <> "error" ->
  field (final_payload obj) k = field obj k.
Proof.
  intros ([_ Hn] & Hen & Hc & He & Hm & _) Hk.
  destruct (obj !! k) as [q|] eqn:Hq.
  - apply field_final_payload; eauto.
  - rewrite field_final_payload_absent by done.
    assert (k <> "code") as Hkc.
    { intros ->. unfold field in Hc. by rewrite Hq in Hc. }
    assert (k <> "message") as Hkm.
    { intros ->. rewrite Hq in Hm. by destruct Hm. }
    rewrite field_boom_payload_other by done. unfold field. by rewrite Hq.
Qed.

Lemma refused_throws (n : nat) (src : loc) (o : jsobject) (w : world) :
  module_loaded w -> heap w !! src = Some o ->
  passes o ->
  status_ok (supplied o "code") = false ->
  (wrap (S (S n)) src w).1 = Threw rejected.
Proof.
  intros Hd Hs Hp Hok.
  destruct (answer_direct (S n) src o w Hd Hs Hp (status_not_ok o Hok)) as (Hr & _).
  by rewrite Hok in Hr.
Qed.

(** ** What [wrap] does beyond the claims *)

Section Further.

Variables (n : nat) (src : loc) (o : jsobject) (w : world).

Hypothesis loaded : module_loaded w.
Hypothesis input : heap w !! src = Some o.

(** X1.  What [wrap] returns is a Boom error whose HTTP status is the [code]
    of its payload, a finite number from 400 up, and whose message is the
    one of the payload when that is truthy.  The payload is an object the
    call allocated. *)
Theorem response_matches_payload (b : boom) (w' : world) :
  wrap (S (S n)) src w = (Returned b, w') ->
  isBoom b = true
  /\ heap w !! response_payload b = None
  /\ exists p, heap w' !! response_payload b = Some p
       /\ response_code b = field p "code"
       /\ status_accepted (response_code b) = true
       /\ boom_message b =
          if truthy (field p "message") then Some (field p "message") else None.
Proof.
  intros Hw.
  assert (passes o) as Hpass.
  { destruct w as [h c lg]. by eapply returned_passes. }
  destruct (status_ok (supplied o "code")) eqn:Hok.
  2:{ pose proof (refused_throws n src o w loaded input Hpass Hok) as Ht.
      by rewrite Hw in Ht. }
  destruct w as [h c lg].
  destruct (wrap_shape n src o h c lg loaded input Hpass Hok)
    as (X & fresh & lg' & HX & Hr).
  rewrite Hr in Hw. injection Hw as <- <-.
  cbn [boom_of isBoom response_payload response_code boom_message heap].
  split; [done|]. split.
  { apply lookup_ge_None. rewrite length_app. lia. }
  exists (final_payload X). split; [apply heap_last|].
  rewrite !field_final_payload_settled by done.
  split; [done|]. split; [|done].
  by destruct HX as (_ & _ & Hc & _).
Qed.

(** X2.  Wrapping the payload of an answer again gives an answer with the
    same fields, one for one, and logs nothing. *)
Theorem wrap_again (m : nat) (b : boom) (w' : world) :
  wrap (S (S n)) src w = (Returned b, w') ->
  exists p p', heap w' !! response_payload b = Some p
    /\ response (wrap (S m) (response_payload b) w') = Some p'
    /\ (forall k, field p' k = field p k)
    /\ log (wrap (S m) (response_payload b) w').2 = log w'.
Proof.
  intros Hw.
  assert (passes o) as Hpass.
  { destruct w as [h c lg]. by eapply returned_passes. }
  destruct (status_ok (supplied o "code")) eqn:Hok.
  2:{ pose proof (refused_throws n src o w loaded input Hpass Hok) as Ht.
      by rewrite Hw in Ht. }
  destruct w as [h c lg].
  destruct (wrap_shape n src o h c lg loaded input Hpass Hok)
    as (X & fresh & lg' & HX & Hr).
  rewrite Hr in Hw. injection Hw as <- <-. cbn [boom_of response_payload heap log].
  destruct (settled_final_payload X HX) as [Hp Herr].
  set (p := final_payload X) in *.
  exists p, (final_payload (wrapped p)). split; [apply heap_last|].
  assert (passes p) as Hpp.
  { apply defined_passes; [by destruct Hp|].
    rewrite supplied_settled by done. destruct Hp as (_ & _ & _ & He & _).
    by destruct (field p "errno"). }
  rewrite (wrap_direct m _ p);
    [|apply heap_old, lookup_app_l_Some; exact loaded|apply heap_last|done
     |apply guess_None, settled_not_classifiable, Hp].
  rewrite field_wrapped_code, status_ok_expected, (settled_status_ok p Hp).
  cbn [response boom_of response_payload heap log snd].
  split; [apply heap_second|]. split; [intros k; by apply rewrap_fields|].
  rewrite unexpected_working.
  pose proof (settled_not_classifiable p Hp) as Hcl.
  rewrite supplied_settled by done. destruct Hp as (_ & _ & _ & He & _).
  destruct (field p "errno"); try done; by rewrite app_nil_r.
Qed.


(** X4.  When no constructor is called on a plain input, the answer carries
    the input's own message, enumerable or not, and every other own field
    of the input that is enumerable and neither [null] nor [undefined]; it
    carries no other field of the input. *)
Theorem fields_carried :
  plain o = true ->
  classifiable o = false ->
  status_ok (supplied o "code") = true ->
  exists p, response (wrap (S (S n)) src w) = Some p
    /\ field p "message" = message_of o
    /\ forall k, k <> "message" -> k <> "info" -> k <> "code" -> k <> "errno" ->
         k <> "error" ->
         field p k = supplied o k.
Proof.
  intros Hpass%plain_passes Hcl Hok. destruct w as [h c lg].
  rewrite (wrap_direct (S n) src o) by (try done; by apply guess_None).
  rewrite field_wrapped_code, status_ok_expected, Hok.
  cbn [response boom_of response_payload heap].
  exists (final_payload (wrapped o)). split; [apply heap_second|].
  assert (settled (wrapped o)) as HX by (apply settled_wrapped; [by destruct Hpass|done]).
  split.
  - rewrite field_final_payload_settled by done.
    apply field_wrapped_message.
  - intros k ? ? ? ? ?. by apply field_answer_other.
Qed.


End Further.

Lemma heap_fifth (h : list jsobject) (a b c d e : jsobject) :
  (h ++ [a; b; c; d; e]) !! (length h + 4)%nat = Some e.
Proof.
  rewrite lookup_app_r by lia.
  by replace (length h + 4 - length h)%nat with 4%nat by lia.
Qed.

(** The fields of the literal a constructor of [guess] wraps. *)
Lemma guess_literal_keys (obj : jsobject) (k : (loc -> M boom) -> M boom) (c : Z) :
  guess obj = Some k ->
  exists (fields : list (string * value)) (cd e : Z),
    (forall errors_wrap w', clock w' = c ->
       k errors_wrap w' = wrap_literal errors_wrap fields w')
    /\ supplied (literal fields) "code" = num cd /\ 400 <= cd
    /\ supplied (literal fields) "errno" = num e
    /\ forall key, key <> "code" -> key <> "errno" -> key <> "message" ->
         key <> "serverTime" -> literal fields !! key = None.
Proof.
  unfold guess. intros H.
  repeat case_match; try done; injection H as <-.
  1-2,4: eexists _, _, _; split; [intros ? ? _; reflexivity|];
         repeat split; try reflexivity; try done;
         intros; unfold literal; simpl;
         rewrite !lookup_insert_ne by done; apply lookup_empty.
  - exists [("code", num 401); ("errno", num 111);
            ("message", VStr "Invalid timestamp in request signature");
            ("serverTime", num (c / 1000))], 401, 111.
    split; [by intros ? [] <-|]. repeat split; try done.
    intros; unfold literal; simpl.
    rewrite !lookup_insert_ne by done; apply lookup_empty.
  - eexists _, _, _; split; [intros ? ? _; reflexivity|].
    repeat split; try reflexivity; try done.
    intros; unfold literal; simpl.
    rewrite !lookup_insert_ne by done; apply lookup_empty.
  - eexists _, _, _; split; [intros ? ? _; reflexivity|];
      repeat split; try reflexivity; try done.
    intros; unfold literal; simpl.
    rewrite !lookup_insert_ne by done; apply lookup_empty.
Qed.

Lemma supplied_None (o : jsobject) (k : string) :
  o !! k = None -> supplied o k = VUndef.
Proof. intros H. unfold supplied. case_decide; [done|]. by rewrite H. Qed.

(** The payload of a constructor's response, field by field: the fields of
    its literal that are neither [null] nor [undefined], the documentation
    URL and the status text. *)
Lemma literal_payload (fields : list (string * value)) (cd e : Z) :
  ordinary (literal fields) ->
  supplied (literal fields) "code" = num cd -> 400 <= cd ->
  supplied (literal fields) "errno" = num e ->
  supplied (literal fields) "info" = VUndef ->
  supplied (literal fields) "error" = VUndef ->
  let p := final_payload (working (literal fields)) in
  settled (working (literal fields))
  /\ field p "code" = num cd
  /\ field p "errno" = num e
  /\ field p "message" = message_of (literal fields)
  /\ field p "info" = field DEFAULTS_object "info"
  /\ field p "error" = status_text (num cd)
  /\ forall k, k <> "message" -> k <> "info" -> k <> "code" -> k <> "errno" ->
       k <> "error" -> field p k = supplied (literal fields) k.
Proof.
  intros [Hh Hn] Hc Hcd He Hi Hr p. subst p.
  assert (status_ok (supplied (literal fields) "code") = true) as Hok.
  { rewrite Hc. unfold status_ok. cbn [status_accepted num].
    replace (400 <=? cd) with true by lia. by rewrite orb_true_r. }
  rewrite <- (wrapped_settled (literal fields)) by (by rewrite ?Hc, ?He).
  pose proof (settled_wrapped _ Hh Hok) as Hs.
  split; [done|].
  split; [by rewrite field_final_payload_settled, field_wrapped_code, Hc by done|].
  split; [by rewrite field_final_payload_settled, field_wrapped_errno, He by done|].
  split; [by rewrite field_final_payload_settled, field_wrapped_message by done|].
  split; [by rewrite field_answer_info, Hi by done|].
  split; [by rewrite field_answer_error, Hr, Hc by done|].
  intros k ? ? ? ? ?. by apply field_answer_other.
Qed.

Section Classified.

Variables (n : nat) (src : loc) (o : jsobject) (w : world).

Hypothesis loaded : module_loaded w.
Hypothesis input : heap w !! src = Some o.

(** X7.  When a constructor is called on a plain input, its response
    replaces the working object: the answer has the documentation URL of
    the defaults and the text of its own status, and beside [code],
    [errno], [message] and [serverTime] it has no field at all, whatever
    fields the input has. *)
Theorem classified_replaced :
  plain o = true ->
  classifiable o = true ->
  exists p, response (wrap (S (S n)) src w) = Some p
    /\ field p "info" = field DEFAULTS_object "info"
    /\ field p "error" = status_text (field p "code")
    /\ forall k, k <> "code" -> k <> "errno" -> k <> "message" -> k <> "info" ->
         k <> "error" -> k <> "serverTime" ->
         field p k = VUndef.
Proof.
  intros Hpass%plain_passes [k Hg]%guess_Some. destruct w as [h c lg].
  destruct (guess_literal_keys _ _ c Hg) as (fields & cd & e & Hrun & Hc & Hcd & He & Hkeys).
  assert (ordinary (literal fields)) as Hlo by (split; by apply Hkeys).
  rewrite (wrap_constructed n src o h c lg k fields cd e) by (try done; by apply Hrun).
  cbn [response boom_of response_payload heap]. rewrite heap_fifth.
  destruct (literal_payload fields cd e) as (HW & Hpc & _ & _ & Hpi & Hpe & Hpo);
    try done; try (apply supplied_None, Hkeys; done).
  destruct (settled_final_payload _ HW) as [Hin Herr].
  eexists. split; [done|].
  assert (forall key, key <> "error" ->
            field (final_payload (final_payload (working (literal fields)))) key
            = field (final_payload (working (literal fields))) key) as Hf
    by (intros; by apply field_final_payload_settled).
  split; [by rewrite Hf|]. split.
  - rewrite (Hf "code") by done. rewrite Hpc, <- Hpe.
    destruct Hin as ([_ Hn] & Hen & Ha & _). by apply field_final_payload.
  - intros key ? ? ? ? ? ?. rewrite Hf, Hpo by done.
    apply supplied_None, Hkeys; done.
Qed.

End Classified.

(** ** The constructors *)

(** A constructor whose literal has an integer status from 400 up, an
    integer [errno] and no [info] or [error] of its own, nor a field that
    hides [hasOwnProperty] or reaches the prototype: the literal goes
    through [wrap] once, nothing is logged, nothing that was in the store
    is written to. *)
Lemma literal_answer (n : nat) (fields : list (string * value)) (cd e : Z) (w : world) :
  module_loaded w ->
  ordinary (literal fields) ->
  supplied (literal fields) "code" = num cd -> 400 <= cd ->
  supplied (literal fields) "errno" = num e ->
  supplied (literal fields) "info" = VUndef ->
  supplied (literal fields) "error" = VUndef ->
  let r := wrap_literal (wrap (S n)) fields w in
  (exists p, response r = Some p
     /\ field p "code" = num cd
     /\ field p "errno" = num e
     /\ field p "message" = message_of (literal fields)
     /\ field p "info" = field DEFAULTS_object "info"
     /\ field p "error" = status_text (num cd)
     /\ forall k, k <> "message" -> k <> "info" -> k <> "code" -> k <> "errno" ->
          k <> "error" -> field p k = supplied (literal fields) k)
  /\ log r.2 = log w
  /\ exists fresh, heap r.2 = heap w ++ fresh.
Proof.
  destruct w as [h c lg]. unfold module_loaded. cbn [heap log].
  intros Hd Ho Hc Hcd He Hi Hr.
  rewrite (wrap_literal_run n fields cd e) by done.
  cbn [response boom_of response_payload heap log snd].
  split; [|eauto].
  exists (final_payload (working (literal fields))). split; [apply heap_third|].
  by destruct (literal_payload fields cd e Ho Hc Hcd He Hi Hr) as (_ & ?).
Qed.

Lemma with_param_run (text : string) (param : value) (s : string) (w : world) :
  ToString param = Some s ->
  with_param text param w =
  (Returned (VStr (text +:+ (if truthy param then ": " +:+ s else ""))), w).
Proof.
  intros Hs. unfold with_param, to_string. rewrite Hs.
  by destruct (truthy param).
Qed.

Ltac constructor_answer H :=
  match goal with
  | |- context [wrap_literal (wrap (S ?n)) ?fields ?w] =>
      match goal with
      | Hw : module_loaded w |- _ =>
          epose proof (literal_answer n fields _ _ w Hw (conj eq_refl eq_refl) eq_refl) as H;
          specialize (H ltac:(lia) eq_refl eq_refl eq_refl); cbv zeta in H
      end
  end.

Section Constructors_answers.

Variables (n : nat) (w : world).

Hypothesis loaded : module_loaded w.

(** X8.  The four request errors without arguments each answer with their
    own [errno], status and message and with the documentation URL, and
    log nothing. *)
Theorem request_constructors :
  Forall
    (fun '(k, e, cd, m) =>
       exists p, response (k (wrap (S n)) w) = Some p
         /\ field p "errno" = num e /\ field p "code" = num cd
         /\ field p "message" = VStr m
         /\ field p "info" = field DEFAULTS_object "info"
         /\ log (k (wrap (S n)) w).2 = log w)
    [(unverifiedAccount, 104, 400, "Unverified account");
     (invalidRequestBody, 106, 400, "Invalid JSON in request body");
     (missingContentLength, 112, 411, "Missing content-length header");
     (requestBodyTooLarge, 113, 413, "Request body too large")].
Proof.
  repeat (apply Forall_cons; split;
    [cbv beta iota;
     match goal with |- context [response (?k _ _)] => unfold k end;
     let H := fresh in
     constructor_answer H;
     destruct H as ((p & Hp & Hc & He & Hm & Hi & _) & Hlog & _);
     exists p; by repeat split|]).
  constructor.
Qed.

(** X9.  [invalidToken] and [invalidNonce] answer 401 with their own
    [errno] and message and with the text of the status as [error], and
    log nothing. *)
Theorem token_constructors :
  Forall
    (fun '(k, e, m) =>
       exists p, response (k (wrap (S n)) w) = Some p
         /\ field p "errno" = num e /\ field p "code" = num 401
         /\ field p "message" = VStr m
         /\ field p "error" = status_text (num 401)
         /\ log (k (wrap (S n)) w).2 = log w)
    [(invalidToken, 110, "Invalid authentication token in request signature");
     (invalidNonce, 115, "Invalid nonce in request signature")].
Proof.
  repeat (apply Forall_cons; split;
    [cbv beta iota;
     match goal with |- context [response (?k _ _)] => unfold k end;
     let H := fresh in
     constructor_answer H;
     destruct H as ((p & Hp & Hc & He & Hm & _ & Hr & _) & Hlog & _);
     exists p; by repeat split|]).
  constructor.
Qed.

(** X10.  [tooManyRequests] and [serviceUnavailable] answer with their own
    [errno], status and message, carry [retryAfter] 30, and log nothing. *)
Theorem retry_constructors :
  Forall
    (fun '(k, e, cd, m) =>
       exists p, response (k (wrap (S n)) w) = Some p
         /\ field p "errno" = num e /\ field p "code" = num cd
         /\ field p "message" = VStr m
         /\ field p "retryAfter" = num 30
         /\ log (k (wrap (S n)) w).2 = log w)
    [(tooManyRequests, 114, 429, "Client has sent too many requests");
     (serviceUnavailable, 201, 503, "Service unavailable")].
Proof.
  repeat (apply Forall_cons; split;
    [cbv beta iota;
     match goal with |- context [response (?k _ _)] => unfold k end;
     let H := fresh in
     constructor_answer H;
     destruct H as ((p & Hp & Hc & He & Hm & _ & _ & Ho) & Hlog & _);
     exists p; repeat split; try done; by rewrite Ho|]).
  constructor.
Qed.

(** X11.  The three account errors answer with status 400 and their own
    [errno] and message, and carry the [email] they were given, unless it
    is [null] or [undefined]: then the answer has no [email]. *)
Theorem email_constructors (email : value) :
  Forall
    (fun '(k, e, m) =>
       exists p, response (k (wrap (S n)) email w) = Some p
         /\ field p "errno" = num e /\ field p "code" = num 400
         /\ field p "message" = VStr m
         /\ field p "email" = (if nullish email then VUndef else email)
         /\ log (k (wrap (S n)) email w).2 = log w)
    [(accountExists, 101, "Account already exists");
     (unknownAccount, 102, "Unknown account");
     (incorrectPassword, 103, "Incorrect password")].
Proof.
  repeat (apply Forall_cons; split;
    [cbv beta iota;
     match goal with |- context [response (?k _ _ _)] => unfold k end;
     let H := fresh in
     constructor_answer H;
     destruct H as ((p & Hp & Hc & He & Hm & Hi & _ & Ho) & Hlog & _);
     exists p; repeat split; try done;
     rewrite Ho by done; by destruct email|]).
  constructor.
Qed.

(** X12.  Given a parameter that is not an object, the two parameter
    errors answer with status 400 and their own [errno]; the message names
    the parameter after a colon, as it is spelled as a string, when it is
    truthy, and is the bare text otherwise; the answer carries [param]
    unless it is [null] or [undefined]. *)
Theorem param_constructors (param : value) (s : string) :
  primitive param = true ->
  ToString param = Some s ->
  Forall
    (fun '(k, e, m) =>
       exists p, response (k (wrap (S n)) param w) = Some p
         /\ field p "errno" = num e /\ field p "code" = num 400
         /\ field p "message" =
            VStr (m +:+ (if truthy param then ": " +:+ s else ""))
         /\ field p "param" = (if nullish param then VUndef else param)
         /\ log (k (wrap (S n)) param w).2 = log w)
    [(invalidRequestParameter, 107, "Invalid parameter in request body");
     (missingRequestParameter, 108, "Missing parameter in request body")].
Proof.
  intros _ Hs.
  repeat (apply Forall_cons; split;
    [cbv beta iota;
     match goal with |- context [response (?k _ _ _)] => unfold k end;
     rewrite (bind_run _ _ w w _ (with_param_run _ param s w Hs));
     let H := fresh in
     constructor_answer H;
     destruct H as ((p & Hp & Hc & He & Hm & Hi & _ & Ho) & Hlog & _);
     exists p; repeat split; try done;
     rewrite Ho by done; by destruct param|]).
  constructor.
Qed.

(** X13.  [invalidSignature] answers 401/109 with the message it was given
    when that is truthy, whatever its type, and with "Invalid request
    signature" otherwise. *)
Theorem invalidSignature_answer (message : value) :
  let r := invalidSignature (wrap (S n)) message w in
  exists p, response r = Some p
    /\ field p "errno" = num 109 /\ field p "code" = num 401
    /\ field p "message" =
       (if truthy message then message else VStr "Invalid request signature")
    /\ log r.2 = log w.
Proof.
  unfold invalidSignature. constructor_answer H.
  destruct H as ((p & Hp & Hc & He & Hm & _) & Hlog & _).
  exists p. by repeat split.
Qed.

(** X14.  [invalidTimestamp] answers 401/111 with the clock reading in
    whole seconds, rounded down, as [serverTime]. *)
Theorem invalidTimestamp_answer :
  let r := invalidTimestamp (wrap (S n)) w in
  exists p t, response r = Some p
    /\ field p "errno" = num 111 /\ field p "code" = num 401
    /\ field p "serverTime" = num t
    /\ 1000 * t <= clock w < 1000 * t + 1000
    /\ log r.2 = log w.
Proof.
  unfold invalidTimestamp.
  change ((let! ms := Date_now in wrap_literal (wrap (S n))
             [("code", num 401); ("errno", num 111);
              ("message", VStr "Invalid timestamp in request signature");
              ("serverTime", num (ms / 1000))]) w)
    with (wrap_literal (wrap (S n))
             [("code", num 401); ("errno", num 111);
              ("message", VStr "Invalid timestamp in request signature");
              ("serverTime", num (clock w / 1000))] w).
  constructor_answer H.
  destruct H as ((p & Hp & Hc & He & _ & _ & _ & Ho) & Hlog & _).
  exists p, (clock w / 1000). repeat split; try done.
  - by rewrite Ho.
  - apply Z.mul_div_le. lia.
  - pose proof (Z.mul_succ_div_gt (clock w) 1000). lia.
Qed.

End Constructors_answers.
(** ** [invalidVerificationCode] and its details *)

Lemma invalidVerificationCode_run (errors_wrap : loc -> M boom) (d : loc)
    (dobj : jsobject) (h : list jsobject) (c : Z) (lg : list log_event) :
  h !! d = Some dobj ->
  Hoek.reaches_prototype true dobj = None ->
  invalidVerificationCode errors_wrap (Some d) (World h c lg) =
  errors_wrap (length h)
    (World (h ++ [Hoek.merge_object true
                    (literal [("code", num 400); ("errno", num 105);
                              ("message", VStr "Invalid verification code")]) dobj])
           c lg).
Proof.
  intros Hd Hp. unfold invalidVerificationCode. mrun. rewrite Hp. mrun. reflexivity.
Qed.

(** What the merge leaves in the literal: the enumerable fields of the
    details, [null] and [undefined] included, over its own. *)
Lemma lookup_merged_details (dobj : jsobject) (k : string) :
  k <> "__proto__" ->
  let lit := literal [("code", num 400); ("errno", num 105);
                      ("message", VStr "Invalid verification code")] in
  Hoek.merge_object true lit dobj !! k =
  match dobj !! k with
  | Some q => if enumerable q then Some (data (pvalue q)) else lit !! k
  | None => lit !! k
  end.
Proof.
  intros Hk lit. rewrite lookup_merge_object by done. unfold Hoek.merge_property.
  destruct (dobj !! k) as [[[] v]|]; simpl; try done.
  assert (forall f, from_option pvalue VUndef (lit !! k) <> VObj f) as Hflat.
  { intros f. unfold lit, literal. simpl.
    repeat (rewrite lookup_insert; case_decide; [done|]). by rewrite lookup_empty. }
  rewrite merge_value_override by done.
  assert (forall q, lit !! k = Some q -> enumerable q = true) as Hen
    by (intros q; apply all_enumerable_literal).
  destruct (lit !! k) as [q|] eqn:Hq; [|done]. simpl.
  unfold data. by rewrite (Hen q).
Qed.

(** The literal with plain details merged in, when these bring no [code]
    and no [message]: it keeps its own, it is ordinary, and whatever else
    [wrap] takes from it comes from the details. *)
Lemma merged_details (dobj : jsobject) :
  ordinary dobj ->
  (forall k q, k = "code" \/ k = "message" ->
     dobj !! k = Some q -> enumerable q = false) ->
  let m := Hoek.merge_object true
             (literal [("code", num 400); ("errno", num 105);
                       ("message", VStr "Invalid verification code")]) dobj in
  ordinary m
  /\ supplied m "code" = num 400
  /\ message_of m = VStr "Invalid verification code"
  /\ supplied m "errno" =
     match dobj !! "errno" with
     | Some q => if enumerable q then supplied dobj "errno" else num 105
     | None => num 105
     end
  /\ forall k, k <> "message" -> k <> "code" -> k <> "errno" ->
       supplied m k = supplied dobj k.
Proof.
  intros [Hh Hp] Hcm m.
  assert (forall k, k = "code" \/ k = "message" ->
            m !! k = literal [("code", num 400); ("errno", num 105);
                              ("message", VStr "Invalid verification code")] !! k) as Hlit.
  { intros k Hk. unfold m.
    rewrite lookup_merged_details by (by destruct Hk as [->| ->]).
    destruct (dobj !! k) as [q|] eqn:Hq; [|done].
    by rewrite (Hcm k q Hk Hq). }
  split.
  { split; unfold m.
    - by rewrite lookup_merged_details, Hh.
    - by rewrite lookup_merge_object_proto. }
  split; [unfold supplied; by rewrite Hlit by auto|].
  split; [unfold message_of; by rewrite Hlit by auto|].
  split.
  { unfold supplied, m. rewrite lookup_merged_details by done.
    case_decide; [done|].
    destruct (dobj !! "errno") as [[[] v]|]; simpl; try done. }
  intros k H1 H2 H3. unfold supplied, m. case_decide; [done|].
  rewrite lookup_merged_details by done.
  assert (literal [("code", num 400); ("errno", num 105);
                   ("message", VStr "Invalid verification code")] !! k = None) as Hn.
  { unfold literal. simpl. rewrite !lookup_insert_ne by done. apply lookup_empty. }
  rewrite Hn. by destruct (dobj !! k) as [[[] v]|].
Qed.

Section Details.

Variables (n : nat) (d : loc) (dobj : jsobject) (w : world).

Hypothesis loaded : module_loaded w.
Hypothesis details : heap w !! d = Some dobj.

(** X15.  Plain details that bring no [code], [message] or [errno] of their
    own: the answer is 400/105 "Invalid verification code"; it carries
    every enumerable field of the details that is neither [null] nor
    [undefined], an [info] or [error] of theirs in place of the
    documentation URL and of the status text; nothing is logged, and the
    details object is as it was. *)
Theorem details_carried :
  plain dobj = true ->
  (forall k q, k = "code" \/ k = "message" \/ k = "errno" ->
     dobj !! k = Some q -> enumerable q = false) ->
  let r := invalidVerificationCode (wrap (S (S n))) (Some d) w in
  exists p, response r = Some p
    /\ field p "errno" = num 105 /\ field p "code" = num 400
    /\ field p "message" = VStr "Invalid verification code"
    /\ (forall k, k <> "message" -> k <> "info" -> k <> "code" -> k <> "errno" ->
          k <> "error" -> field p k = supplied dobj k)
    /\ field p "info" =
       (if is_undefined (supplied dobj "info") then field DEFAULTS_object "info"
        else supplied dobj "info")
    /\ field p "error" =
       (if is_undefined (supplied dobj "error") then status_text (num 400)
        else supplied dobj "error")
    /\ log r.2 = log w
    /\ heap r.2 !! d = Some dobj.
Proof.
  intros [Hord _]%plain_ordinary Hne. destruct w as [h c lg]. cbn [heap log] in *.
  rewrite (invalidVerificationCode_run _ d dobj)
    by (try done; apply reaches_prototype_None; by destruct Hord).
  assert (forall k q, k = "code" \/ k = "message" ->
            dobj !! k = Some q -> enumerable q = false) as Hcm
    by (intros k q [->| ->]; apply Hne; auto).
  destruct (merged_details dobj Hord Hcm) as (Hmo & Hc & Hm & He & Ho).
  set (m := Hoek.merge_object true _ dobj) in *.
  assert (supplied m "errno" = num 105) as He'.
  { rewrite He. destruct (dobj !! "errno") as [q|] eqn:Hq; [|done].
    by rewrite (Hne "errno" q) by auto. }
  assert (passes m) as Hpass by (apply defined_passes; [done|by rewrite He']).
  assert (classifiable m = false) as Hcl by (unfold classifiable; by rewrite He').
  assert (status_ok (supplied m "code") = true) as Hok by (by rewrite Hc).
  rewrite (wrap_direct (S n) _ m);
    [|by apply heap_old|apply heap_last|done|by apply guess_None].
  rewrite field_wrapped_code, status_ok_expected, Hok.
  cbn [response boom_of response_payload heap log snd].
  exists (final_payload (wrapped m)). rewrite length_app. cbn [length].
  rewrite Nat.add_1_r, <- app_assoc. cbn [app].
  split; [apply heap_third|].
  assert (settled (wrapped m)) as Hs by (apply settled_wrapped; [by destruct Hmo|done]).
  split; [by rewrite field_final_payload_settled, field_wrapped_errno, He' by done|].
  split; [by rewrite field_final_payload_settled, field_wrapped_code, Hc, He' by done|].
  split; [by rewrite field_final_payload_settled, field_wrapped_message by done|].
  split.
  { intros k ? ? ? ? ?. rewrite field_answer_other by done. by apply Ho. }
  split; [by rewrite field_answer_info, Ho by done|].
  split; [by rewrite field_answer_error, Ho, Hc, He' by done|].
  split.
  - by rewrite unexpected_working, He', app_nil_r.
  - by apply lookup_app_l_Some.
Qed.

(** X16.  Plain details that bring no [code] and no [message] of their own,
    but an enumerable [errno]: it overrides the 105 of the constructor; when
    that [errno] is [null] or [undefined] the answer is the unexpected
    error, 999, and the call is logged once. *)
Theorem details_errno (v : value) :
  plain dobj = true ->
  (forall k q, k = "code" \/ k = "message" ->
     dobj !! k = Some q -> enumerable q = false) ->
  dobj !! "errno" = Some (Property true v) ->
  let r := invalidVerificationCode (wrap (S (S n))) (Some d) w in
  exists p, response r = Some p
    /\ field p "code" = num 400
    /\ field p "errno" = (if nullish v then num 999 else v)
    /\ log r.2 =
       log w ++ (if nullish v
                 then [LogEvent error "error.wrap" "unexpected error" (S (length (heap w)))]
                 else []).
Proof.
  intros [Hord _]%plain_ordinary Hcm Hv. destruct w as [h c lg]. cbn [heap log] in *.
  rewrite (invalidVerificationCode_run _ d dobj)
    by (try done; apply reaches_prototype_None; by destruct Hord).
  destruct (merged_details dobj Hord Hcm) as (Hmo & Hc & Hm & He & _).
  set (m := Hoek.merge_object true _ dobj) in *.
  assert (supplied m "errno" = if nullish v then VUndef else v) as He'.
  { rewrite He, Hv. unfold supplied. rewrite Hv. simpl. by destruct v. }
  assert (passes m) as Hpass.
  { apply ordinary_passes; [done|]. intros _. by rewrite Hm. }
  assert (classifiable m = false) as Hcl.
  { unfold classifiable. rewrite Hc, Hm. cbn. by rewrite andb_false_r. }
  assert (status_ok (supplied m "code") = true) as Hok by (by rewrite Hc).
  rewrite (wrap_direct (S n) _ m);
    [|by apply heap_old|apply heap_last|done|by apply guess_None].
  rewrite field_wrapped_code, status_ok_expected, Hok.
  cbn [response boom_of response_payload heap log snd].
  exists (final_payload (wrapped m)). rewrite length_app. cbn [length].
  rewrite Nat.add_1_r, <- app_assoc. cbn [app].
  split; [apply heap_third|].
  assert (settled (wrapped m)) as Hs by (apply settled_wrapped; [by destruct Hmo|done]).
  split.
  { rewrite field_final_payload_settled, field_wrapped_code, Hc by done.
    unfold expected_code. cbn. done. }
  split.
  { rewrite field_final_payload_settled, field_wrapped_errno, He' by done.
    by destruct v. }
  rewrite unexpected_working, He'. by destruct v.
Qed.

End Details.

Section No_details.

Variables (n : nat) (w : world).

Hypothesis loaded : module_loaded w.

(** X17.  Called with no details, [invalidVerificationCode] answers
    400/105 with its own message and the documentation URL and logs
    nothing. *)
Theorem no_details :
  let r := invalidVerificationCode (wrap (S n)) None w in
  exists p, response r = Some p
    /\ field p "errno" = num 105 /\ field p "code" = num 400
    /\ field p "message" = VStr "Invalid verification code"
    /\ field p "info" = field DEFAULTS_object "info"
    /\ log r.2 = log w.
Proof.
  change (invalidVerificationCode (wrap (S n)) None w) with
    (wrap_literal (wrap (S n))
       [("code", num 400); ("errno", num 105);
        ("message", VStr "Invalid verification code")] w).
  cbv zeta. constructor_answer H.
  destruct H as ((p & Hp & Hc & He & Hm & Hi & _) & Hlog & _).
  exists p. by repeat split.
Qed.

End No_details.

End Service.
(** * Concrete calls *)

Abbreviation node_call := (call node_STATUS_CODES plain_escapeHtml decimal).

Abbreviation node_wrap := (wrap node_STATUS_CODES plain_escapeHtml decimal).

(** C1, counterexample.  An input with a field [hasOwnProperty] is thrown
    at, line 38 calls what the field holds; so is a 400 whose message
    cannot be turned into a string, at line 59, and a status of 200, by the
    Boom constructor.  An input with status 500 and no [errno] is not
    classifiable, and it is answered 999/500, not 999/400; a status of
    400.5 is kept as it is, no integer; an input whose [errno] is a string
    keeps it, and no integer takes its place. *)
Lemma unexpected_status_kept :
  (node_call 0 [("hasOwnProperty", num 1)]).1 = Threw not_a_function
  /\ (node_call 0 [("code", num 400); ("message", VObj {["toString" := num 1]})]).1
     = Threw cannot_convert
  /\ (node_call 0 [("code", num 200)]).1 = Threw rejected
  /\ classifiable decimal (literal [("code", num 500)]) = false
  /\ answer (node_call 0 [("code", num 500)]) "errno" = Some (num 999)
  /\ answer (node_call 0 [("code", num 500)]) "code" = Some (num 500)
  /\ answer (node_call 0 [("code", num 500)]) "code" <> Some (num 400)
  /\ answer (node_call 0 [("code", VNum (Frac 400 1)); ("errno", num 7)]) "code"
     = Some (VNum (Frac 400 1))
  /\ (forall z, answer (node_call 0 [("code", VNum (Frac 400 1)); ("errno", num 7)]) "code"
                <> Some (num z))
  /\ answer (node_call 0 [("errno", VStr "x")]) "errno" = Some (VStr "x")
  /\ forall z, answer (node_call 0 [("errno", VStr "x")]) "errno" <> Some (num z).
Proof.
  repeat split; try (vm_compute; reflexivity);
    intros; vm_compute; discriminate.
Qed.




(** C5, counterexample.  The empty message of an input is kept as it is;
    and an input with a field [hasOwnProperty] is thrown at, and gets no
    message. *)
Lemma empty_message_kept :
  answer (node_call 0 [("message", VStr "")]) "message" = Some (VStr "")
  /\ string_ne <$> answer (node_call 0 [("message", VStr "")]) "message"
     = Some false
  /\ (node_call 0 [("hasOwnProperty", num 1)]).1 = Threw not_a_function
  /\ answer (node_call 0 [("hasOwnProperty", num 1)]) "message" = None.
Proof. repeat split; vm_compute; reflexivity. Qed.

(** C6, counterexample.  An [errno] that is there but is [null], or is not
    enumerable, is dropped by the merge with the defaults: the input is
    classified, and answered with the [errno] of the constructor.  An
    [errno] beside a field [hasOwnProperty] is not handed back: line 38
    throws. *)
Lemma errno_null_classified :
  let fields := [("errno", VNull); ("code", num 401); ("message", VStr "Invalid nonce")] in
  let hidden := <["errno" := Property false (num 105)]>
                  (literal [("code", num 401); ("message", VStr "Invalid nonce")]) in
  field (literal fields) "errno" = VNull
  /\ answer (node_call 0 fields) "errno" = Some (num 115)
  /\ answer (node_call 0 fields) "errno" <> Some VNull
  /\ field hidden "errno" = num 105
  /\ answer (node_wrap 2 1%nat (started 0 hidden)) "errno" = Some (num 115)
  /\ answer (node_wrap 2 1%nat (started 0 hidden)) "errno" <> Some (num 105)
  /\ (node_call 0 [("errno", num 105); ("hasOwnProperty", num 1)]).1
     = Threw not_a_function.
Proof.
  repeat split; try (vm_compute; reflexivity); vm_compute; discriminate.
Qed.


(** C9, counterexample.  A status that is there and is [null] is no number,
    and it is answered 400, not 500.  A status that is a string, beside a
    field [hasOwnProperty], is not answered at all. *)
Lemma null_status_400 :
  (node_call 0 [("code", VStr "weird"); ("hasOwnProperty", num 1)]).1 = Threw not_a_function
  /\ literal [("code", VNull)] !! "code" = Some (data VNull)
  /\ is_number VNull = false
  /\ answer (node_call 0 [("code", VNull)]) "code" = Some (num 400)
  /\ answer (node_call 0 [("code", VNull)]) "code" <> Some (num 500).
Proof.
  repeat split; try (vm_compute; reflexivity); vm_compute; discriminate.
Qed.


(** A status below 400 gets through the sanitation and is refused by the
    Boom constructor: the call throws, after the log event if there is
    one. *)
Lemma status_200_thrown :
  (node_call 0 [("code", num 200)]).1 = Threw rejected
  /\ length (log (node_call 0 [("code", num 200)]).2) = 1%nat
  /\ (node_call 0 [("errno", num 105); ("code", num 200)]).1 = Threw rejected.
Proof. repeat split; vm_compute; reflexivity. Qed.

(** ** The theorems at work *)

(** [wrap({})]: 999/400. *)
Lemma wrap_answers_witness :
  module_loaded (started 0 (literal []))
  /\ heap (started 0 (literal [])) !! 1%nat = Some (literal [])
  /\ plain (literal []) = true
  /\ status_ok (supplied (literal []) "code") = true
  /\ exists p, response (node_call 0 []) = Some p
       /\ field p "errno" = num 999 /\ field p "code" = num 400.
Proof.
  split; [reflexivity|]. split; [reflexivity|]. split; [reflexivity|].
  split; [reflexivity|].
  destruct (wrap_answers node_STATUS_CODES plain_escapeHtml decimal 0 1%nat (literal [])
              (started 0 (literal [])) eq_refl eq_refl eq_refl eq_refl)
    as (p & Hp & _ & _ & H).
  exists p. split; [exact Hp|]. apply H; reflexivity.
Defined.




(** [wrap({})]: "Unspecified error". *)
Lemma message_kept_witness :
  module_loaded (started 0 (literal []))
  /\ heap (started 0 (literal [])) !! 1%nat = Some (literal [])
  /\ plain (literal []) = true
  /\ status_ok (supplied (literal []) "code") = true
  /\ exists p, response (node_call 0 []) = Some p
       /\ field p "message" = VStr "Unspecified error".
Proof.
  split; [reflexivity|]. split; [reflexivity|]. split; [reflexivity|].
  split; [reflexivity|].
  destruct (message_kept node_STATUS_CODES plain_escapeHtml decimal 0 1%nat (literal [])
              (started 0 (literal [])) eq_refl eq_refl eq_refl eq_refl)
    as (p & Hp & H & _).
  exists p. split; [exact Hp|]. apply H. reflexivity.
Defined.

(** [wrap({errno: 105, code: 400, message: "m"})] keeps [errno] 105. *)
Lemma errno_kept_witness :
  let fields := [("errno", num 105); ("code", num 400); ("message", VStr "m")] in
  module_loaded (started 0 (literal fields))
  /\ heap (started 0 (literal fields)) !! 1%nat = Some (literal fields)
  /\ plain (literal fields) = true
  /\ is_undefined (supplied (literal fields) "errno") = false
  /\ status_ok (supplied (literal fields) "code") = true
  /\ exists p, response (node_call 0 fields) = Some p /\ field p "errno" = num 105.
Proof.
  intros fields.
  split; [reflexivity|]. split; [reflexivity|]. split; [reflexivity|].
  split; [reflexivity|]. split; [reflexivity|].
  destruct (errno_kept node_STATUS_CODES plain_escapeHtml decimal 0 1%nat
              (literal fields) (started 0 (literal fields))
              eq_refl eq_refl eq_refl eq_refl) as (_ & Hall & Hex).
  destruct (Hex eq_refl) as [p Hp]. exists p. split; [exact Hp|]. exact (Hall p Hp).
Defined.

(** [wrap({code: 401, message: "Stale timestamp"})] at 1700000000.123 s. *)
Lemma stale_timestamp_witness :
  let fields := [("code", num 401); ("message", VStr "Stale timestamp")] in
  module_loaded (started 1700000000123 (literal fields))
  /\ heap (started 1700000000123 (literal fields)) !! 1%nat = Some (literal fields)
  /\ ordinary (literal fields)
  /\ is_undefined (supplied (literal fields) "errno") = true
  /\ supplied (literal fields) "code" = num 401
  /\ message_of (literal fields) = VStr "Stale timestamp"
  /\ exists p, response (node_call 1700000000123 fields) = Some p
       /\ field p "errno" = num 111 /\ field p "code" = num 401
       /\ field p "serverTime" = num 1700000000.
Proof.
  intros fields.
  split; [reflexivity|]. split; [reflexivity|]. split; [split; reflexivity|].
  split; [reflexivity|]. split; [reflexivity|]. split; [reflexivity|].
  destruct (stale_timestamp node_STATUS_CODES plain_escapeHtml decimal 0 1%nat
              (literal fields) (started 1700000000123 (literal fields))
              eq_refl eq_refl (conj eq_refl eq_refl) eq_refl eq_refl eq_refl)
    as (p & Hp & He & Hc & t & Ht & Hlo & Hhi).
  exists p. split; [exact Hp|]. split; [exact He|]. split; [exact Hc|].
  rewrite Ht. cbn [clock started] in Hlo, Hhi.
  replace t with 1700000000 by lia. reflexivity.
Defined.


(** [wrap({code: "weird"})]: 500. *)
Lemma garbage_status_witness :
  module_loaded (started 0 (literal [("code", VStr "weird")]))
  /\ heap (started 0 (literal [("code", VStr "weird")])) !! 1%nat
     = Some (literal [("code", VStr "weird")])
  /\ plain (literal [("code", VStr "weird")]) = true
  /\ is_undefined (supplied (literal [("code", VStr "weird")]) "code") = false
  /\ is_number (supplied (literal [("code", VStr "weird")]) "code") = false
  /\ exists p, response (node_call 0 [("code", VStr "weird")]) = Some p
       /\ field p "code" = num 500.
Proof.
  split; [reflexivity|]. split; [reflexivity|]. split; [reflexivity|].
  split; [reflexivity|]. split; [reflexivity|].
  exact (garbage_status node_STATUS_CODES plain_escapeHtml decimal 0 1%nat
           (literal [("code", VStr "weird")])
           (started 0 (literal [("code", VStr "weird")]))
           eq_refl eq_refl eq_refl eq_refl eq_refl).
Defined.


(** ** The further properties at work *)

(** The store once the module is loaded, at a given time. *)
Abbreviation loaded_at ms := (World [DEFAULTS_object] ms []).

(** [wrap({code: 404})]: a Boom error with a status from 400 up. *)
Lemma response_matches_payload_witness :
  let o := literal [("code", num 404)] in
  module_loaded (started 0 o)
  /\ heap (started 0 o) !! 1%nat = Some o
  /\ exists b w', node_call 0 [("code", num 404)] = (Returned b, w')
       /\ isBoom b = true
       /\ status_accepted (response_code b) = true.
Proof.
  intros o. split; [reflexivity|]. split; [reflexivity|].
  destruct (node_call 0 [("code", num 404)]) as [[b|e| |dp] w'] eqn:E;
    [|vm_compute in E; discriminate..].
  exists b, w'. split; [reflexivity|].
  destruct (response_matches_payload node_STATUS_CODES plain_escapeHtml decimal 0 1%nat o
              (started 0 o) eq_refl eq_refl b w' E)
    as (Hb & _ & p & _ & _ & Hz & _).
  split; [exact Hb|exact Hz].
Defined.

(** The payload of [wrap({errno: 7, path: "/x"})], wrapped again. *)
Lemma wrap_again_witness :
  let fields := [("errno", num 7); ("path", VStr "/x")] in
  module_loaded (started 0 (literal fields))
  /\ heap (started 0 (literal fields)) !! 1%nat = Some (literal fields)
  /\ exists b w', node_call 0 fields = (Returned b, w')
       /\ exists p p', heap w' !! response_payload b = Some p
            /\ response (node_wrap 1 (response_payload b) w') = Some p'
            /\ forall k, field p' k = field p k.
Proof.
  intros fields. split; [reflexivity|]. split; [reflexivity|].
  destruct (node_call 0 fields) as [[b|e| |dp] w'] eqn:E;
    [|vm_compute in E; discriminate..].
  exists b, w'. split; [reflexivity|].
  destruct (wrap_again node_STATUS_CODES plain_escapeHtml decimal 0 1%nat (literal fields)
              (started 0 (literal fields)) eq_refl eq_refl 0%nat b w' E)
    as (p & p' & Hp & Hp' & Hf & _).
  exists p, p'. split; [exact Hp|]. split; [exact Hp'|exact Hf].
Defined.


(** [wrap({code: 404, errno: 7, message: "gone", path: "/x"})] *)
Lemma fields_carried_witness :
  let fields := [("code", num 404); ("errno", num 7); ("message", VStr "gone");
                 ("path", VStr "/x")] in
  module_loaded (started 0 (literal fields))
  /\ heap (started 0 (literal fields)) !! 1%nat = Some (literal fields)
  /\ plain (literal fields) = true
  /\ classifiable decimal (literal fields) = false
  /\ status_ok (supplied (literal fields) "code") = true
  /\ exists p, response (node_call 0 fields) = Some p
       /\ field p "message" = VStr "gone"
       /\ field p "path" = VStr "/x".
Proof.
  intros fields. split; [reflexivity|]. split; [reflexivity|].
  split; [reflexivity|]. split; [reflexivity|]. split; [reflexivity|].
  destruct (fields_carried node_STATUS_CODES plain_escapeHtml decimal 0 1%nat
              (literal fields) (started 0 (literal fields))
              eq_refl eq_refl eq_refl eq_refl eq_refl)
    as (p & Hp & Hm & Hk).
  exists p. split; [exact Hp|]. split; [exact Hm|].
  apply (Hk "path"); discriminate.
Defined.


(** [wrap({code: 401, message: "Invalid nonce", extra: "x"})] has no
    [extra]. *)
Lemma classified_replaced_witness :
  let fields := [("code", num 401); ("message", VStr "Invalid nonce");
                 ("extra", VStr "x")] in
  module_loaded (started 0 (literal fields))
  /\ heap (started 0 (literal fields)) !! 1%nat = Some (literal fields)
  /\ plain (literal fields) = true
  /\ classifiable decimal (literal fields) = true
  /\ exists p, response (node_call 0 fields) = Some p
       /\ field p "extra" = VUndef.
Proof.
  intros fields. split; [reflexivity|]. split; [reflexivity|]. split; [reflexivity|].
  split; [reflexivity|].
  destruct (classified_replaced node_STATUS_CODES plain_escapeHtml decimal 0 1%nat
              (literal fields) (started 0 (literal fields))
              eq_refl eq_refl eq_refl eq_refl)
    as (p & Hp & _ & _ & Hk).
  exists p. split; [exact Hp|]. apply Hk; discriminate.
Defined.

(** [requestBodyTooLarge()] *)
Lemma request_constructors_witness :
  module_loaded (loaded_at 0)
  /\ exists p, response (requestBodyTooLarge (node_wrap 1) (loaded_at 0)) = Some p
       /\ field p "errno" = num 113
       /\ field p "code" = num 413.
Proof.
  split; [reflexivity|].
  pose proof (Forall_inv (Forall_inv_tail (Forall_inv_tail (Forall_inv_tail
                (request_constructors node_STATUS_CODES plain_escapeHtml decimal 0
                   (loaded_at 0) eq_refl))))) as H.
  cbv beta iota in H. destruct H as (p & Hp & He & Hc & _).
  exists p. split; [exact Hp|]. split; [exact He|exact Hc].
Defined.

(** [invalidToken()]: 401, "Unauthorized". *)
Lemma token_constructors_witness :
  module_loaded (loaded_at 0)
  /\ exists p, response (invalidToken (node_wrap 1) (loaded_at 0)) = Some p
       /\ field p "errno" = num 110
       /\ field p "error" = VStr "Unauthorized".
Proof.
  split; [reflexivity|].
  pose proof (Forall_inv (token_constructors node_STATUS_CODES plain_escapeHtml decimal 0
                            (loaded_at 0) eq_refl)) as H.
  cbv beta iota in H. destruct H as (p & Hp & He & _ & _ & Hr & _).
  exists p. split; [exact Hp|]. split; [exact He|exact Hr].
Defined.

(** [serviceUnavailable()] carries [retryAfter: 30]. *)
Lemma retry_constructors_witness :
  module_loaded (loaded_at 0)
  /\ exists p, response (serviceUnavailable (node_wrap 1) (loaded_at 0)) = Some p
       /\ field p "code" = num 503
       /\ field p "retryAfter" = num 30.
Proof.
  split; [reflexivity|].
  pose proof (Forall_inv (Forall_inv_tail
                (retry_constructors node_STATUS_CODES plain_escapeHtml decimal 0
                   (loaded_at 0) eq_refl))) as H.
  cbv beta iota in H. destruct H as (p & Hp & _ & Hc & _ & Ho & _).
  exists p. split; [exact Hp|]. split; [exact Hc|exact Ho].
Defined.

(** [accountExists("a@b.c")] *)
Lemma email_constructors_witness :
  module_loaded (loaded_at 0)
  /\ exists p, response (accountExists (node_wrap 1) (VStr "a@b.c") (loaded_at 0)) = Some p
       /\ field p "errno" = num 101
       /\ field p "email" = VStr "a@b.c".
Proof.
  split; [reflexivity|].
  pose proof (Forall_inv (email_constructors node_STATUS_CODES plain_escapeHtml decimal 0
                            (loaded_at 0) eq_refl (VStr "a@b.c"))) as H.
  cbv beta iota in H. destruct H as (p & Hp & He & _ & _ & Hm & _).
  exists p. split; [exact Hp|]. split; [exact He|exact Hm].
Defined.

(** [invalidRequestParameter("email")] *)
Lemma param_constructors_witness :
  module_loaded (loaded_at 0)
  /\ primitive (VStr "email") = true
  /\ ToString decimal (VStr "email") = Some "email"
  /\ exists p,
       response (invalidRequestParameter decimal (node_wrap 1) (VStr "email") (loaded_at 0)) = Some p
       /\ field p "message" = VStr "Invalid parameter in request body: email"
       /\ field p "param" = VStr "email".
Proof.
  split; [reflexivity|]. split; [reflexivity|]. split; [reflexivity|].
  pose proof (Forall_inv (param_constructors node_STATUS_CODES plain_escapeHtml decimal 0
                            (loaded_at 0) eq_refl (VStr "email") "email"
                            eq_refl eq_refl)) as H.
  cbv beta iota in H. destruct H as (p & Hp & _ & _ & Hm & Hq & _).
  exists p. split; [exact Hp|]. split; [exact Hm|exact Hq].
Defined.

(** [invalidSignature()] and its own text. *)
Lemma invalidSignature_answer_witness :
  module_loaded (loaded_at 0)
  /\ exists p, response (invalidSignature (node_wrap 1) VUndef (loaded_at 0)) = Some p
       /\ field p "errno" = num 109
       /\ field p "message" = VStr "Invalid request signature".
Proof.
  split; [reflexivity|].
  pose proof (invalidSignature_answer node_STATUS_CODES plain_escapeHtml decimal 0
                (loaded_at 0) eq_refl VUndef) as H.
  cbv zeta in H. destruct H as (p & Hp & He & _ & Hm & _).
  exists p. split; [exact Hp|]. split; [exact He|exact Hm].
Defined.

(** [invalidTimestamp()] at 1700000000123 ms. *)
Lemma invalidTimestamp_answer_witness :
  module_loaded (loaded_at 1700000000123)
  /\ exists p t,
       response (invalidTimestamp (node_wrap 1) (loaded_at 1700000000123)) = Some p
       /\ field p "serverTime" = num t
       /\ 1000 * t <= 1700000000123 < 1000 * t + 1000.
Proof.
  split; [reflexivity|].
  pose proof (invalidTimestamp_answer node_STATUS_CODES plain_escapeHtml decimal 0
                (loaded_at 1700000000123) eq_refl) as H.
  cbv zeta in H. destruct H as (p & t & Hp & _ & _ & Ht & Hr & _).
  exists p, t. split; [exact Hp|]. split; [exact Ht|exact Hr].
Defined.

(** [invalidVerificationCode({uid: "abc"})] *)
Lemma details_carried_witness :
  let dobj := literal [("uid", VStr "abc")] in
  let w := World [DEFAULTS_object; dobj] 0 [] in
  module_loaded w
  /\ heap w !! 1%nat = Some dobj
  /\ plain dobj = true
  /\ (forall k q, k = "code" \/ k = "message" \/ k = "errno" ->
       dobj !! k = Some q -> enumerable q = false)
  /\ exists p, response (invalidVerificationCode (node_wrap 2) (Some 1%nat) w) = Some p
       /\ field p "errno" = num 105
       /\ field p "uid" = VStr "abc".
Proof.
  intros dobj w.
  assert (forall k q, k = "code" \/ k = "message" \/ k = "errno" ->
            dobj !! k = Some q -> enumerable q = false) as Hno
    by (intros k q [->|[->| ->]] H; vm_compute in H; discriminate).
  split; [reflexivity|]. split; [reflexivity|]. split; [reflexivity|].
  split; [exact Hno|].
  pose proof (details_carried node_STATUS_CODES plain_escapeHtml decimal 0 1%nat dobj w
                eq_refl eq_refl eq_refl Hno) as H.
  cbv zeta in H. destruct H as (p & Hp & He & _ & _ & Hk & _).
  exists p. split; [exact Hp|]. split; [exact He|].
  apply (Hk "uid"); discriminate.
Defined.

(** [invalidVerificationCode({errno: null})] *)
Lemma details_errno_witness :
  let dobj := literal [("errno", VNull)] in
  let w := World [DEFAULTS_object; dobj] 0 [] in
  module_loaded w
  /\ heap w !! 1%nat = Some dobj
  /\ plain dobj = true
  /\ (forall k q, k = "code" \/ k = "message" -> dobj !! k = Some q -> enumerable q = false)
  /\ dobj !! "errno" = Some (Property true VNull)
  /\ exists p, response (invalidVerificationCode (node_wrap 2) (Some 1%nat) w) = Some p
       /\ field p "errno" = num 999
       /\ length (log (invalidVerificationCode (node_wrap 2) (Some 1%nat) w).2) = 1%nat.
Proof.
  intros dobj w.
  assert (forall k q, k = "code" \/ k = "message" -> dobj !! k = Some q ->
            enumerable q = false) as Hplain
    by (intros k q [->| ->] H; vm_compute in H; discriminate).
  split; [reflexivity|]. split; [reflexivity|]. split; [reflexivity|].
  split; [exact Hplain|]. split; [reflexivity|].
  pose proof (details_errno node_STATUS_CODES plain_escapeHtml decimal 0 1%nat dobj w
                eq_refl eq_refl VNull eq_refl Hplain eq_refl) as H.
  cbv zeta in H. destruct H as (p & Hp & _ & He & Hl).
  exists p. split; [exact Hp|]. split; [exact He|].
  exact (f_equal length Hl).
Defined.

(** [invalidVerificationCode()] *)
Lemma no_details_witness :
  module_loaded (loaded_at 0)
  /\ exists p, response (invalidVerificationCode (node_wrap 1) None (loaded_at 0)) = Some p
       /\ field p "errno" = num 105
       /\ field p "code" = num 400.
Proof.
  split; [reflexivity|].
  pose proof (no_details node_STATUS_CODES plain_escapeHtml decimal 0 (loaded_at 0) eq_refl) as H.
  cbv zeta in H. destruct H as (p & Hp & He & Hc & _).
  exists p. split; [exact Hp|]. split; [exact He|exact Hc].
Defined.
